(** * NordicNeuroLab SyncBox driver: a shallow embedding of [NordicNeuroLab.py]

    The driver talks to the SyncBox over a serial line (pyserial).  The
    embedding keeps the shape of the Python class [SyncBox]:

    - a Python [bytes] value is a [list byte], a Python [str] a [string]
      (holding, as Rocq string literals do, the UTF-8 encoding of its text);
    - the [Serial] object held in [self.port] is a record: the bytes written
      so far, the bytes the device delivers to each later [read], the
      mutable [timeout] field and the open flag;
    - the methods run in a state-and-exception monad over that record, so
      that a method which raises keeps the writes it made before raising;
    - opening an endpoint may raise [SerialException]; on an open port a
      write succeeds and a read returns what the device delivered, which
      may be less than asked for, or nothing;
    - [time.sleep] and [print] have no effect on the data: the first is
      kept as a no-op, the second is left out;
    - [_findSyncBox] takes as an argument the list of names that
      [_getAvailableSerialPorts] returns; [_getAvailableSerialPorts] takes
      [sys.platform] and [glob.glob] as arguments, and the one exception
      that opening an endpoint raises is [SerialException]. *)

From Stdlib Require Import ZArith List Bool Lia QArith_base.
From Stdlib Require Import Strings.String Strings.Ascii Strings.Byte.
Import ListNotations.

Local Open Scope string_scope.
Local Open Scope Z_scope.

(** ** Bytes and strings *)

Definition bytes := list byte.

(** [bytes(s, 'ascii')] and the literals [b"..."]: one byte per character
    (the driver only builds such values from digits, a sign and letters). *)
Definition bytes_of_string (s : string) : bytes := list_byte_of_string s.

Fixpoint bytes_eqb (x y : bytes) : bool :=
  match x, y with
  | [], [] => true
  | a :: x', c :: y' => Byte.eqb a c && bytes_eqb x' y'
  | _, _ => false
  end.

(** ** [str(var)] on integers *)

Definition digit_char (d : Z) : ascii := ascii_of_N (Z.to_N (48 + d)).

Fixpoint digits_fuel (fuel : nat) (n : Z) (acc : string) : string :=
  match fuel with
  | O => acc
  | S fuel' =>
      let acc' := String (digit_char (n mod 10)) acc in
      if n <? 10 then acc' else digits_fuel fuel' (n / 10) acc'
  end.

(** Decimal digits of a non-negative integer, most significant first. *)
Definition digits (n : Z) : string :=
  digits_fuel (S (Z.to_nat (Z.log2 n))) n "".

(** Python's [str] on an [int]: a minus sign for negative numbers, then the
    digits of the absolute value. *)
Definition str (var : Z) : string :=
  if var <? 0 then String "-" (digits (- var)) else digits var.

(** ** Exceptions *)

(** The text of each [SyncBoxException] raised by the driver. *)
Inductive message : Type :=
| Unable_to_start_session (confirmation : bytes)
| Unable_to_stop_session
| Unable_to_find_SyncBox
| Unable_to_configure_SyncBox
| Parameter_unsupported (var : Z)
| Unable_to_disconnect.

Inductive exn : Type :=
| SyncBoxException (m : message)
| SerialException
| UnicodeDecodeError.

Inductive result (A : Type) : Type :=
| Return (a : A)
| Raise (e : exn).
Arguments Return {A} a.
Arguments Raise {A} e.

(** ** [SyncBox._stringVar] *)

Definition _stringVar (var : Z) : result bytes :=
  let num := str var in
  match String.length num with
  | 1%nat => Return (bytes_of_string ("000" ++ num))
  | 2%nat => Return (bytes_of_string ("00" ++ num))
  | 3%nat => Return (bytes_of_string ("0" ++ num))
  | 4%nat => Return (bytes_of_string ("" ++ num))
  | _ => Raise (SyncBoxException (Parameter_unsupported var))
  end.

(** ** [bytes.decode("utf-8")] *)

Definition in_range (lo hi : N) (b : byte) : bool :=
  (lo <=? Byte.to_N b)%N && (Byte.to_N b <=? hi)%N.

Definition continuation (b : byte) : bool := in_range 0x80 0xBF b.

(** Second byte of a three-byte sequence: no overlong forms, no surrogates. *)
Definition second_of_3 (b0 b1 : byte) : bool :=
  if in_range 0xE0 0xE0 b0 then in_range 0xA0 0xBF b1
  else if in_range 0xED 0xED b0 then in_range 0x80 0x9F b1
  else continuation b1.

(** Second byte of a four-byte sequence: no overlong forms, at most U+10FFFF. *)
Definition second_of_4 (b0 b1 : byte) : bool :=
  if in_range 0xF0 0xF0 b0 then in_range 0x90 0xBF b1
  else if in_range 0xF4 0xF4 b0 then in_range 0x80 0x8F b1
  else continuation b1.

Fixpoint utf8_valid (bs : bytes) : bool :=
  match bs with
  | [] => true
  | b0 :: t0 =>
      if in_range 0x00 0x7F b0 then utf8_valid t0
      else
        match t0 with
        | [] => false
        | b1 :: t1 =>
            if in_range 0xC2 0xDF b0 then continuation b1 && utf8_valid t1
            else
              match t1 with
              | [] => false
              | b2 :: t2 =>
                  if in_range 0xE0 0xEF b0
                  then second_of_3 b0 b1 && continuation b2 && utf8_valid t2
                  else
                    match t2 with
                    | [] => false
                    | b3 :: t3 =>
                        in_range 0xF0 0xF4 b0 && second_of_4 b0 b1
                        && continuation b2 && continuation b3 && utf8_valid t3
                    end
              end
        end
  end.

(** Strict decoding: any ill-formed sequence raises [UnicodeDecodeError]. *)
Definition decode_utf8 (out : bytes) : result string :=
  if utf8_valid out then Return (string_of_list_byte out)
  else Raise UnicodeDecodeError.

(** ** The serial port object *)

Record Serial : Type := mkSerial {
  port : string;            (* name of the endpoint *)
  baudrate : Z;
  timeout : option Q;       (* [None]: wait for ever *)
  is_open : bool;
  written : bytes;          (* every byte written, oldest first *)
  incoming : list bytes     (* what the device delivers to each coming read *)
}.

Definition set_timeout (t : option Q) (s : Serial) : Serial :=
  mkSerial (port s) (baudrate s) t (is_open s) (written s) (incoming s).

Definition set_is_open (o : bool) (s : Serial) : Serial :=
  mkSerial (port s) (baudrate s) (timeout s) o (written s) (incoming s).

Definition set_written (w : bytes) (s : Serial) : Serial :=
  mkSerial (port s) (baudrate s) (timeout s) (is_open s) w (incoming s).

Definition set_incoming (i : list bytes) (s : Serial) : Serial :=
  mkSerial (port s) (baudrate s) (timeout s) (is_open s) (written s) i.

(** Bytes a read did not take stay in the input buffer, in front of what
    arrives next. *)
Definition requeue (left : bytes) (rest : list bytes) : list bytes :=
  match left, rest with
  | [], _ => rest
  | _, [] => [left]
  | _, chunk :: rest' => (left ++ chunk)%list :: rest'
  end.

(** [Serial.write(data)]. *)
Definition Serial_write (data : bytes) (s : Serial) : Serial :=
  set_written (written s ++ data)%list s.

(** [Serial.read(size)]: at most [size] bytes; fewer (possibly none) when the
    device delivers no more before the read gives up. *)
Definition Serial_read (size : nat) (s : Serial) : bytes * Serial :=
  match incoming s with
  | [] => ([], s)
  | chunk :: rest =>
      (firstn size chunk, set_incoming (requeue (skipn size chunk) rest) s)
  end.

(** [Serial.in_waiting]: number of bytes in the input buffer. *)
Definition in_waiting (s : Serial) : nat :=
  match incoming s with
  | [] => 0%nat
  | chunk :: _ => List.length chunk
  end.

(** [Serial.close()]. *)
Definition Serial_close (s : Serial) : Serial := set_is_open false s.

(** The endpoints of the machine: [None] when opening the endpoint raises
    [SerialException], otherwise what the device behind it will deliver. *)
Definition world := string -> option (list bytes).

(** [Serial(port=name, baudrate=baud)]. *)
Definition Serial_new (w : world) (name : string) (baud : Z) : result Serial :=
  match w name with
  | None => Raise SerialException
  | Some device => Return (mkSerial name baud None true [] device)
  end.

(** ** The monad of the methods: state [self.port], exceptions *)

Definition M (A : Type) : Type := Serial -> result A * Serial.

Definition ret {A : Type} (a : A) : M A := fun s => (Return a, s).

Definition raise {A : Type} (e : exn) : M A := fun s => (Raise e, s).

Definition bind {A B : Type} (m : M A) (k : A -> M B) : M B :=
  fun s =>
    match m s with
    | (Return a, s') => k a s'
    | (Raise e, s') => (Raise e, s')
    end.

Definition lift {A : Type} (r : result A) : M A := fun s => (r, s).

Notation "x <- m ;; k" := (bind m (fun x => k))
  (at level 61, m at next level, right associativity).
Notation "m ;; k" := (bind m (fun _ => k))
  (at level 61, right associativity).

Definition port_write (data : bytes) : M unit :=
  fun s => (Return tt, Serial_write data s).

Definition port_read (size : nat) : M bytes :=
  fun s => let (out, s') := Serial_read size s in (Return out, s').

Definition port_in_waiting : M nat := fun s => (Return (in_waiting s), s).

Definition port_set_timeout (t : option Q) : M unit :=
  fun s => (Return tt, set_timeout t s).

Definition port_close : M unit := fun s => (Return tt, Serial_close s).

Definition time_sleep (seconds : Q) : M unit := ret tt.

Definition b (s : string) : bytes := bytes_of_string s.

(** ** The class [SyncBox] *)

(** The attributes set by [__init__] from its arguments. *)
Record SyncBox : Type := mkSyncBox {
  num_volumes : Z;
  num_slices : Z;
  trigger_slice : Z;
  trigger_volume : Z;
  pulse_length : Z;
  TR_time : Z;
  optional_trigger_slice : Z;
  optional_trigger_volume : Z;
  simulation : bool
}.

(** The default arguments of [__init__]. *)
Definition default_SyncBox : SyncBox := mkSyncBox 16 1 1 1 100 3000 0 0 true.

Definition readCurrentInputBuffer : M string :=
  n <- port_in_waiting ;;
  out <- port_read n ;;
  lift (decode_utf8 out).

Definition getTrigger (timeout : option Q) : M string :=
  port_set_timeout timeout ;;
  out <- port_read 1 ;;
  port_set_timeout None ;;
  lift (decode_utf8 out).

Definition start : M unit :=
  port_write (b "S") ;;
  time_sleep (1 # 10) ;;
  confirmation <- port_read 1 ;;
  time_sleep (1 # 10) ;;
  if negb (bytes_eqb confirmation (b "S"))
  then raise (SyncBoxException (Unable_to_start_session confirmation))
  else ret tt.

Definition stop : M unit :=
  port_write (b "A") ;;
  time_sleep (1 # 10) ;;
  confirmation <- port_read 1 ;;
  time_sleep (1 # 10) ;;
  if negb (bytes_eqb confirmation (b "A"))
  then raise (SyncBoxException Unable_to_stop_session)
  else ret tt.

(** One turn of the loop of [_findSyncBox], inside its [try]. *)
Definition probe : M bool :=
  port_set_timeout (Some (2 # 10)) ;;
  port_write (b "C") ;;
  time_sleep (1 # 10) ;;
  confirmation <- port_read 1 ;;
  time_sleep (1 # 10) ;;
  ret (bytes_eqb confirmation (b "C")).

(** [_findSyncBox], on the list [availablePorts] that
    [_getAvailableSerialPorts] returned.  Besides the result, the [Serial]
    objects created so far are returned, each as the loop left it. *)
Fixpoint _findSyncBox_from (w : world) (availablePorts : list string)
    (created : list Serial) : result Serial * list Serial :=
  match availablePorts with
  | [] => (Raise (SyncBoxException Unable_to_find_SyncBox), created)
  | name :: rest =>
      match Serial_new w name 57600 with
      | Raise SerialException => _findSyncBox_from w rest created
      | Raise e => (Raise e, created)
      | Return com =>
          match probe com with
          | (Return true, com') => (Return com', (created ++ [com'])%list)
          | (Return false, com') =>
              _findSyncBox_from w rest (created ++ [com'])%list
          | (Raise SerialException, com') =>
              _findSyncBox_from w rest (created ++ [com'])%list
          | (Raise e, com') => (Raise e, (created ++ [com'])%list)
          end
      end
  end.

Definition _findSyncBox (w : world) (availablePorts : list string)
  : result Serial * list Serial :=
  _findSyncBox_from w availablePorts [].

Definition _configure (self : SyncBox) : M unit :=
  port_write (b "R") ;;
  time_sleep (1 # 10) ;;
  confirmation <- port_read 1 ;;
  time_sleep (1 # 10) ;;
  if negb (bytes_eqb confirmation (b "R"))
  then raise (SyncBoxException Unable_to_configure_SyncBox)
  else
    port_write (b "0000") ;;
    (f <- lift (_stringVar (num_volumes self)) ;; port_write f) ;;
    (f <- lift (_stringVar (num_slices self)) ;; port_write f) ;;
    (f <- lift (_stringVar (pulse_length self)) ;; port_write f) ;;
    (f <- lift (_stringVar (TR_time self)) ;; port_write f) ;;
    (f <- lift (_stringVar (trigger_slice self)) ;; port_write f) ;;
    (f <- lift (_stringVar (trigger_volume self)) ;; port_write f) ;;
    port_write (b "0000") ;;
    port_write (b "0000") ;;
    (f <- lift (_stringVar (optional_trigger_slice self)) ;; port_write f) ;;
    (f <- lift (_stringVar (optional_trigger_volume self)) ;; port_write f) ;;
    (if simulation self
     then port_write (b "0000")
     else port_write (b "0001")) ;;
    time_sleep (2 # 10) ;;
    confirmation <- port_read (12 * 4) ;;
    time_sleep (1 # 10) ;;
    if negb (List.length confirmation =? 12 * 4)%nat
    then raise (SyncBoxException Unable_to_configure_SyncBox)
    else ret tt.

Definition close : M unit :=
  port_write (b "D") ;;
  time_sleep (1 # 10) ;;
  confirmation <- port_read 1 ;;
  time_sleep (1 # 10) ;;
  if negb (bytes_eqb confirmation (b "D"))
  then raise (SyncBoxException Unable_to_disconnect)
  else port_close.

(** [__init__]: find the SyncBox, then configure it. *)
Definition SyncBox_init (w : world) (availablePorts : list string)
    (self : SyncBox) : result unit * option Serial :=
  match fst (_findSyncBox w availablePorts) with
  | Raise e => (Raise e, None)
  | Return com => let (r, com') := _configure self com in (r, Some com')
  end.

(** ** Calls made by a client, in sequence *)

Inductive call : Type :=
| Call_readCurrentInputBuffer
| Call_getTrigger (timeout : option Q)
| Call_start
| Call_stop
| Call_configure
| Call_close.

(** How a call ended: [None] when it returned, [Some e] when it raised [e]. *)
Definition outcome {A : Type} (r : result A) : option exn :=
  match r with
  | Return _ => None
  | Raise e => Some e
  end.

Definition call_method (self : SyncBox) (c : call) (p : Serial)
  : option exn * Serial :=
  match c with
  | Call_readCurrentInputBuffer =>
      let (r, p') := readCurrentInputBuffer p in (outcome r, p')
  | Call_getTrigger t => let (r, p') := getTrigger t p in (outcome r, p')
  | Call_start => let (r, p') := start p in (outcome r, p')
  | Call_stop => let (r, p') := stop p in (outcome r, p')
  | Call_configure => let (r, p') := _configure self p in (outcome r, p')
  | Call_close => let (r, p') := close p in (outcome r, p')
  end.


(** What the device answers to the one-byte command [command]: the byte (or
    nothing) that the [read(1)] following the write returns. *)
Definition reply (command : string) (p : Serial) : bytes :=
  fst (Serial_read 1 (Serial_write (b command) p)).

(** The port once the command is written and its answer read. *)
Definition after_handshake (command : string) (p : Serial) : Serial :=
  snd (Serial_read 1 (Serial_write (b command) p)).

(** ** The vocabulary of the specification

    Definitions of this part follow the words of the specification; the
    theorems compare them with the methods above. *)

(** A parameter of the configuration is expected in [0, 9999]. *)
Definition in_field_range (v : Z) : Prop := 0 <= v <= 9999.

Definition parameters_in_range (self : SyncBox) : Prop :=
  in_field_range (num_volumes self) /\ in_field_range (num_slices self) /\
  in_field_range (trigger_slice self) /\ in_field_range (trigger_volume self) /\
  in_field_range (pulse_length self) /\ in_field_range (TR_time self) /\
  in_field_range (optional_trigger_slice self) /\
  in_field_range (optional_trigger_volume self).

Definition digit_byte (d : Z) : byte := byte_of_ascii (digit_char d).

(** The four-character field of [v]: thousands, hundreds, tens, units. *)
Definition field4 (v : Z) : bytes :=
  [digit_byte (v / 1000); digit_byte (v / 100 mod 10);
   digit_byte (v / 10 mod 10); digit_byte (v mod 10)].

Fixpoint zeros (n : nat) : string :=
  match n with
  | O => ""
  | S n' => String "0" (zeros n')
  end.

(** [s] padded with zeros on the left to [width] characters. *)
Definition pad_left (width : nat) (s : string) : string :=
  (zeros (width - String.length s) ++ s)%string.

Definition digit_value (c : byte) : option Z :=
  let n := Z.of_N (Byte.to_N c) in
  if (48 <=? n) && (n <=? 57) then Some (n - 48) else None.

Fixpoint decode_from (acc : Z) (field : bytes) : option Z :=
  match field with
  | [] => Some acc
  | c :: rest =>
      match digit_value c with
      | Some d => decode_from (10 * acc + d) rest
      | None => None
      end
  end.

(** [decode]: a non-empty field of decimal digits read back as a number. *)
Definition decode (field : bytes) : option Z :=
  match field with
  | [] => None
  | _ => decode_from 0 field
  end.

Definition mode_flag (self : SyncBox) : bytes :=
  if simulation self then b "0000" else b "0001".

(** The twelve fields of a configuration, in the order of the protocol. *)
Definition configuration_fields (self : SyncBox) : list bytes :=
  [ b "0000";
    field4 (num_volumes self);
    field4 (num_slices self);
    field4 (pulse_length self);
    field4 (TR_time self);
    field4 (trigger_slice self);
    field4 (trigger_volume self);
    b "0000";
    b "0000";
    field4 (optional_trigger_slice self);
    field4 (optional_trigger_volume self);
    mode_flag self ].

(** The same twelve fields as [_stringVar] yields them, each one either a
    field or the exception of its parameter. *)
Definition encoded_fields (self : SyncBox) : list (result bytes) :=
  [ Return (b "0000");
    _stringVar (num_volumes self);
    _stringVar (num_slices self);
    _stringVar (pulse_length self);
    _stringVar (TR_time self);
    _stringVar (trigger_slice self);
    _stringVar (trigger_volume self);
    Return (b "0000");
    Return (b "0000");
    _stringVar (optional_trigger_slice self);
    _stringVar (optional_trigger_volume self);
    Return (mode_flag self) ].

(** The fields in front of the first one whose encoding raises. *)
Fixpoint fields_before_failure (fields : list (result bytes)) : bytes :=
  match fields with
  | Return f :: rest => (f ++ fields_before_failure rest)%list
  | _ => []
  end.

(** The exception of the first field whose encoding raises, if any. *)
Fixpoint first_failure (fields : list (result bytes)) : option exn :=
  match fields with
  | [] => None
  | Return _ :: rest => first_failure rest
  | Raise e :: _ => Some e
  end.




Inductive TriggerEvent : Type :=
| Sync
| LeftThumb
| LeftIndex
| RightIndex
| RightThumb
| Unknown.

(** The meaning of the string returned by [getTrigger], as its docstring
    lists it; any other string is [Unknown]. *)
Definition trigger_event (trigger : string) : TriggerEvent :=
  if String.eqb trigger "s" then Sync
  else if String.eqb trigger "a" then LeftThumb
  else if String.eqb trigger "b" then LeftIndex
  else if String.eqb trigger "c" then RightIndex
  else if String.eqb trigger "d" then RightThumb
  else Unknown.

(** What the first [read(1)] on a freshly opened endpoint returns. *)
Definition first_read (device : list bytes) : bytes :=
  match device with
  | [] => []
  | chunk :: _ => firstn 1 chunk
  end.

Definition can_open (w : world) (name : string) : bool :=
  match w name with
  | Some _ => true
  | None => false
  end.

(** The endpoint opens and answers the probe with the byte ['C']. *)
Definition answers_C (w : world) (name : string) : bool :=
  match w name with
  | Some device => bytes_eqb (first_read device) (b "C")
  | None => false
  end.

(** The candidates up to and including the first that answers ['C']. *)
Fixpoint scanned (w : world) (availablePorts : list string) : list string :=
  match availablePorts with
  | [] => []
  | name :: rest =>
      if answers_C w name then [name] else name :: scanned w rest
  end.

(** The decoding table of the specification, byte by byte. *)
Definition event_of_byte (x : byte) : TriggerEvent :=
  match x with
  | "s"%byte => Sync
  | "a"%byte => LeftThumb
  | "b"%byte => LeftIndex
  | "c"%byte => RightIndex
  | "d"%byte => RightThumb
  | _ => Unknown
  end.

(** The candidate at position [k] is the first to answer ['C']. *)
Definition first_responder (w : world) (availablePorts : list string)
    (k : nat) (name : string) : Prop :=
  nth_error availablePorts k = Some name /\
  answers_C w name = true /\
  forall j other, (j < k)%nat -> nth_error availablePorts j = Some other ->
                  answers_C w other = false.

(** The eight parameters that [_configure] encodes, in the order it does. *)
Definition parameters (self : SyncBox) : list Z :=
  [ num_volumes self; num_slices self; pulse_length self; TR_time self;
    trigger_slice self; trigger_volume self;
    optional_trigger_slice self; optional_trigger_volume self ].

Definition is_digit (c : byte) : Prop := digit_value c <> None.

Definition configuration_failed : exn :=
  SyncBoxException Unable_to_configure_SyncBox.

(** The [Serial] object of an endpoint once the loop of [_findSyncBox] has
    probed it. *)
Definition probed (name : string) (device : list bytes) : Serial :=
  snd (probe (mkSerial name 57600 None true [] device)).

(** ** Inputs of the examples *)

(** A port found by [_findSyncBox], with what its device will deliver. *)
Definition answering (incoming : list bytes) : Serial :=
  mkSerial "COM1" 57600 (Some (2 # 10)%Q) true [] incoming.

Definition echo48 : bytes :=
  b "000000160001010030000001000100000000000000000000".

(** [COM0] cannot be opened, [COM1] answers ['X'], [COM2] and [COM3] answer
    ['C']. *)
Definition three_ports (name : string) : option (list bytes) :=
  if String.eqb name "COM1" then Some [b "X"]
  else if String.eqb name "COM2" then Some [b "C"]
  else if String.eqb name "COM3" then Some [b "C"]
  else None.


Definition too_many_slices : SyncBox :=
  mkSyncBox 16 10000 1 1 100 3000 0 0 true.

(** ** [SyncBox._getAvailableSerialPorts] *)

(** [s.startswith(prefix)]. *)
Definition startswith (s prefix : string) : bool := String.prefix prefix s.

(** [['COM%s' % (i + 1) for i in range(256)]]. *)
Definition COM_ports : list string :=
  map (fun i => "COM" ++ str (Z.of_nat i + 1)) (seq 0 256).

(** The names to try on the platform [sys_platform], where [glob] stands
    for [glob.glob]; [None] when [EnvironmentError] is raised. *)
Definition platform_ports (sys_platform : string)
    (glob : string -> list string) : option (list string) :=
  if startswith sys_platform "win" then Some COM_ports
  else if startswith sys_platform "linux" || startswith sys_platform "cygwin"
  then Some (glob "/dev/tty[A-Za-z]*")
  else if startswith sys_platform "darwin" then Some (glob "/dev/tty.*")
  else None.

(** How [_getAvailableSerialPorts] ends. *)
Inductive enumeration : Type :=
| Ports (result : list string)
| EnvironmentError
| Uncaught (e : exn).

(** The loop over [ports]: each name is opened with the default baud rate,
    closed at once and kept; a name that cannot be opened is passed over.
    The [Serial] objects created are returned as the loop left them. *)
Fixpoint _getAvailableSerialPorts_from (w : world) (ports : list string)
    (result : list string) (created : list Serial)
  : enumeration * list Serial :=
  match ports with
  | [] => (Ports result, created)
  | name :: rest =>
      match Serial_new w name 9600 with
      | Return s =>
          let s' := Serial_close s in
          _getAvailableSerialPorts_from w rest
            (result ++ [name])%list (created ++ [s'])%list
      | Raise SerialException =>
          _getAvailableSerialPorts_from w rest result created
      | Raise e => (Uncaught e, created)
      end
  end.

Definition _getAvailableSerialPorts (sys_platform : string)
    (glob : string -> list string) (w : world) : enumeration * list Serial :=
  match platform_ports sys_platform glob with
  | None => (EnvironmentError, [])
  | Some ports => _getAvailableSerialPorts_from w ports [] []
  end.

(** ** More vocabulary *)

(** The command byte of each handshake. *)
Definition command (c : call) : bytes :=
  match c with
  | Call_start => b "S"
  | Call_stop => b "A"
  | Call_close => b "D"
  | Call_configure => b "R"
  | Call_readCurrentInputBuffer | Call_getTrigger _ => []
  end.


Definition is_ascii (x : byte) : Prop := (Byte.to_N x < 128)%N.

(** The text of [var] has at most four characters. *)
Definition fits_four_characters (v : Z) : Prop := -999 <= v <= 9999.

(** The object that [Serial(port)] followed by [close()] leaves. *)
Definition tried (w : world) (name : string) : list Serial :=
  match w name with
  | Some device => [Serial_close (mkSerial name 9600 None true [] device)]
  | None => []
  end.

(** [COM1] answers ['X']; behind [COM2] a SyncBox confirms ['C'] and ['R'],
    echoes a configuration and then sends a trigger. *)
Definition syncbox_at_COM2 (name : string) : option (list bytes) :=
  if String.eqb name "COM1" then Some [b "X"]
  else if String.eqb name "COM2" then Some [b "C"; b "R"; echo48; b "s"]
  else None.

(** A byte that cannot begin a UTF-8 sequence: a continuation byte, an
    overlong lead ([0xC0], [0xC1]) or a lead beyond [0xF4]. *)
Definition never_lead (x : byte) : bool :=
  in_range 0x80 0xC1 x || in_range 0xF5 0xFF x.

(** * Properties *)

Local Open Scope list_scope.

Ltac Zify.zify_post_hook ::= Z.to_euclidean_division_equations.

(** ** Bytes and strings *)

Lemma bytes_eqb_eq (x y : bytes) : bytes_eqb x y = true <-> x = y.
Proof.
  revert y; induction x as [|a x IH]; intros [|c y]; simpl; split;
    try congruence; try tauto.
  - intros H. apply andb_true_iff in H as [Hac Hxy].
    apply Byte.byte_dec_bl in Hac. apply IH in Hxy. congruence.
  - intros H. injection H as -> ->. apply andb_true_iff. split.
    + now apply Byte.byte_dec_lb.
    + now apply IH.
Qed.

Lemma bytes_eqb_false (x y : bytes) : bytes_eqb x y = false <-> x <> y.
Proof.
  split.
  - intros H E. apply bytes_eqb_eq in E. congruence.
  - intros H. destruct (bytes_eqb x y) eqn:E; [|reflexivity].
    apply bytes_eqb_eq in E. contradiction.
Qed.

Lemma append_assoc (s1 s2 s3 : string) :
  ((s1 ++ s2) ++ s3 = s1 ++ (s2 ++ s3))%string.
Proof. induction s1 as [|c s1 IH]; simpl; [reflexivity | now rewrite IH]. Qed.

Lemma length_append (s1 s2 : string) :
  String.length (s1 ++ s2)%string = (String.length s1 + String.length s2)%nat.
Proof. induction s1 as [|c s1 IH]; simpl; [reflexivity | now rewrite IH]. Qed.

(** ** The digits of [str] *)

Lemma digits_fuel_acc (fuel : nat) :
  forall n acc, digits_fuel fuel n acc = (digits_fuel fuel n "" ++ acc)%string.
Proof.
  induction fuel as [|fuel IH]; intros n acc; simpl.
  - reflexivity.
  - destruct (n <? 10).
    + reflexivity.
    + rewrite IH. rewrite (IH _ (String _ "")).
      rewrite append_assoc. reflexivity.
Qed.

Lemma log2_div10 (n : Z) : 10 <= n -> Z.log2 (n / 10) < Z.log2 n.
Proof.
  intros Hn.
  assert (Hq : 0 < n / 10) by (apply Z.div_str_pos; lia).
  apply Z.log2_lt_pow2; [exact Hq|].
  destruct (Z.log2_spec n) as [Hlo Hhi]; [lia|].
  rewrite Z.pow_succ_r in Hhi by apply Z.log2_nonneg.
  apply Z.div_lt_upper_bound; lia.
Qed.

(** The fuel given by [digits] is enough: more fuel changes nothing. *)
Lemma digits_fuel_enough (f1 : nat) :
  forall f2 n acc, 0 <= n ->
    Z.log2 n < Z.of_nat f1 -> Z.log2 n < Z.of_nat f2 ->
    digits_fuel f1 n acc = digits_fuel f2 n acc.
Proof.
  induction f1 as [|f1 IH]; intros f2 n acc Hn H1 H2.
  - pose proof (Z.log2_nonneg n). lia.
  - destruct f2 as [|f2]; [pose proof (Z.log2_nonneg n); lia|].
    simpl. destruct (n <? 10) eqn:Hlt; [reflexivity|].
    apply Z.ltb_ge in Hlt. pose proof (log2_div10 n Hlt).
    apply IH; lia.
Qed.

Lemma digits_lt_10 (n : Z) :
  0 <= n < 10 -> digits n = String (digit_char n) "".
Proof.
  intros Hn. unfold digits. simpl.
  replace (n <? 10) with true by (symmetry; apply Z.ltb_lt; lia).
  rewrite Z.mod_small by lia. reflexivity.
Qed.

Lemma digits_ge_10 (n : Z) :
  10 <= n ->
  digits n = (digits (n / 10) ++ String (digit_char (n mod 10)) "")%string.
Proof.
  intros Hn. unfold digits at 1. simpl.
  replace (n <? 10) with false by (symmetry; apply Z.ltb_ge; lia).
  rewrite digits_fuel_acc. f_equal. unfold digits.
  pose proof (log2_div10 n Hn). pose proof (Z.log2_nonneg (n / 10)).
  apply digits_fuel_enough; lia.
Qed.

Lemma length_digits_lt_10 (n : Z) :
  0 <= n < 10 -> String.length (digits n) = 1%nat.
Proof. intros Hn. now rewrite digits_lt_10. Qed.

Lemma length_digits_ge_10 (n : Z) :
  10 <= n -> String.length (digits n) = S (String.length (digits (n / 10))).
Proof.
  intros Hn. rewrite digits_ge_10 by exact Hn.
  rewrite length_append. simpl. lia.
Qed.

Lemma length_digits_pos (n : Z) :
  0 <= n -> exists k, String.length (digits n) = S k.
Proof.
  intros Hn. destruct (Z_lt_le_dec n 10) as [Hlt|Hge].
  - exists 0%nat. apply length_digits_lt_10. lia.
  - eexists. apply length_digits_ge_10. exact Hge.
Qed.

Lemma length_digits_ge_1000 (n : Z) :
  1000 <= n -> exists k, String.length (digits n) = S (S (S (S k))).
Proof.
  intros Hn.
  destruct (length_digits_pos (n / 10 / 10 / 10)) as [k Hk]; [lia|].
  exists k.
  rewrite (length_digits_ge_10 n) by lia.
  rewrite (length_digits_ge_10 (n / 10)) by lia.
  rewrite (length_digits_ge_10 (n / 10 / 10)) by lia.
  now rewrite Hk.
Qed.

Lemma length_digits_ge_10000 (n : Z) :
  10000 <= n -> exists k, String.length (digits n) = S (S (S (S (S k)))).
Proof.
  intros Hn.
  destruct (length_digits_ge_1000 (n / 10)) as [k Hk]; [lia|].
  exists k. rewrite (length_digits_ge_10 n) by lia. now rewrite Hk.
Qed.

(** The digits of a number below 10000, by number of digits. *)
Lemma digits_below_10000 (v : Z) :
  0 <= v <= 9999 ->
  (v < 10 /\ digits v = String (digit_char v) "") \/
  (10 <= v < 100 /\
   digits v = String (digit_char (v / 10)) (String (digit_char (v mod 10)) "")) \/
  (100 <= v < 1000 /\
   digits v = String (digit_char (v / 100)) (String (digit_char (v / 10 mod 10))
                (String (digit_char (v mod 10)) ""))) \/
  (1000 <= v /\
   digits v = String (digit_char (v / 1000)) (String (digit_char (v / 100 mod 10))
                (String (digit_char (v / 10 mod 10))
                   (String (digit_char (v mod 10)) "")))).
Proof.
  intros Hv.
  destruct (Z_lt_le_dec v 10) as [H1|H1].
  { left. split; [lia|]. apply digits_lt_10. lia. }
  right. rewrite (digits_ge_10 v) by lia.
  destruct (Z_lt_le_dec v 100) as [H2|H2].
  { left. split; [lia|]. rewrite digits_lt_10 by lia. reflexivity. }
  right. rewrite (digits_ge_10 (v / 10)) by lia.
  replace (v / 10 / 10) with (v / 100) by lia.
  destruct (Z_lt_le_dec v 1000) as [H3|H3].
  { left. split; [lia|]. rewrite digits_lt_10 by lia. reflexivity. }
  right. split; [lia|]. rewrite (digits_ge_10 (v / 100)) by lia.
  replace (v / 100 / 10) with (v / 1000) by lia.
  rewrite digits_lt_10 by lia. reflexivity.
Qed.

Lemma str_nonneg (v : Z) : 0 <= v -> str v = digits v.
Proof.
  intros Hv. unfold str.
  now replace (v <? 0) with false by (symmetry; apply Z.ltb_ge; lia).
Qed.

Lemma str_neg (v : Z) : v < 0 -> str v = String "-" (digits (- v)).
Proof.
  intros Hv. unfold str.
  now replace (v <? 0) with true by (symmetry; apply Z.ltb_lt; lia).
Qed.

(** ** [_stringVar] *)

Example stringVar_7 : _stringVar 7 = Return (b "0007").
Proof. reflexivity. Qed.

Example stringVar_10000 :
  _stringVar 10000 = Raise (SyncBoxException (Parameter_unsupported 10000)).
Proof. reflexivity. Qed.

Lemma stringVar_field4 (v : Z) :
  0 <= v <= 9999 -> _stringVar v = Return (field4 v).
Proof.
  intros Hv. unfold _stringVar. rewrite str_nonneg by lia.
  unfold field4.
  destruct (digits_below_10000 v Hv) as [[H ->]|[[H ->]|[[H ->]|[H ->]]]];
    simpl.
  - replace (v / 1000) with 0 by lia. replace (v / 100 mod 10) with 0 by lia.
    replace (v / 10 mod 10) with 0 by lia. replace (v mod 10) with v by lia.
    reflexivity.
  - replace (v / 1000) with 0 by lia. replace (v / 100 mod 10) with 0 by lia.
    replace (v / 10 mod 10) with (v / 10) by lia.
    reflexivity.
  - replace (v / 1000) with 0 by lia.
    replace (v / 100 mod 10) with (v / 100) by lia.
    reflexivity.
  - reflexivity.
Qed.

(** Whenever the text of [var] has at most four characters, [_stringVar]
    returns it padded with zeros; the sign of a negative number counts as
    one of the characters. *)
Lemma stringVar_returns (v : Z) :
  -999 <= v <= 9999 ->
  _stringVar v = Return (bytes_of_string (pad_left 4 (str v))).
Proof.
  intros Hv. destruct (Z_lt_le_dec v 0) as [Hneg|Hpos].
  - unfold _stringVar, pad_left. rewrite str_neg by lia.
    assert (H : 0 <= - v <= 9999) by lia.
    destruct (digits_below_10000 (- v) H) as [[H' ->]|[[H' ->]|[[H' ->]|[H' _]]]];
      try reflexivity. lia.
  - unfold _stringVar, pad_left. rewrite str_nonneg by lia.
    assert (H : 0 <= v <= 9999) by lia.
    destruct (digits_below_10000 v H) as [[H' ->]|[[H' ->]|[[H' ->]|[H' ->]]]];
      reflexivity.
Qed.

(** [_stringVar] raises exactly when the text of [var] is longer than four
    characters. *)
Lemma stringVar_raises (v : Z) :
  10000 <= v \/ v <= -1000 ->
  _stringVar v = Raise (SyncBoxException (Parameter_unsupported v)).
Proof.
  intros [Hv|Hv]; unfold _stringVar.
  - rewrite str_nonneg by lia.
    destruct (length_digits_ge_10000 v Hv) as [k ->]. reflexivity.
  - rewrite str_neg by lia.
    destruct (length_digits_ge_1000 (- v)) as [k Hk]; [lia|].
    simpl. rewrite Hk. reflexivity.
Qed.

Lemma digit_value_digit_byte (d : Z) :
  0 <= d <= 9 -> digit_value (digit_byte d) = Some d.
Proof.
  intros Hd.
  assert (H : d = 0 \/ d = 1 \/ d = 2 \/ d = 3 \/ d = 4 \/ d = 5 \/ d = 6 \/
              d = 7 \/ d = 8 \/ d = 9) by lia.
  repeat (destruct H as [-> | H]; [reflexivity|]). subst d. reflexivity.
Qed.

Lemma decode_field4 (v : Z) : 0 <= v <= 9999 -> decode (field4 v) = Some v.
Proof.
  intros Hv. unfold decode, field4, decode_from.
  rewrite !digit_value_digit_byte by lia.
  f_equal. lia.
Qed.

Lemma field4_digits (v : Z) : 0 <= v <= 9999 -> Forall is_digit (field4 v).
Proof.
  intros Hv. unfold field4, is_digit.
  repeat constructor; rewrite digit_value_digit_byte by lia; discriminate.
Qed.

(** C2: for every integer [v] in [0, 9999], [_stringVar v] returns a field
    of four characters, all decimal digits, which is the decimal text of
    [v] padded with zeros on the left to width four; reading the field back
    as a decimal number gives [v]. *)
Theorem stringVar_encodes (v : Z) :
  0 <= v <= 9999 ->
  _stringVar v = Return (field4 v) /\
  List.length (field4 v) = 4%nat /\
  Forall is_digit (field4 v) /\
  field4 v = bytes_of_string (pad_left 4 (str v)) /\
  decode (field4 v) = Some v.
Proof.
  intros Hv. split; [now apply stringVar_field4|].
  split; [reflexivity|]. split; [now apply field4_digits|].
  split; [|now apply decode_field4].
  assert (H : Return (field4 v) = Return (bytes_of_string (pad_left 4 (str v)))).
  { rewrite <- stringVar_field4 by exact Hv. apply stringVar_returns. lia. }
  now injection H.
Qed.

(** C2 at [v = 7]: the field is ["0007"] and reads back as 7. *)
Lemma stringVar_encodes_witness :
  0 <= 7 <= 9999 /\
  _stringVar 7 = Return (b "0007") /\ decode (b "0007") = Some 7.
Proof.
  assert (H : 0 <= 7 <= 9999) by lia.
  destruct (stringVar_encodes 7 H) as (He & _ & _ & _ & Hd).
  split; [exact H|]. split; [exact He | exact Hd].
Defined.

(** C3 at [v = -5] and [v = -999]: the texts ["-5"] and ["-999"] have two
    and four characters, so [_stringVar] raises nothing and returns the
    fields ["00-5"] and ["-999"]. *)
Theorem stringVar_minus_5 :
  _stringVar (-5) = Return (b "00-5") /\
  _stringVar (-999) = Return (b "-999").
Proof. split; reflexivity. Qed.

(** ** The port *)

Lemma Serial_write_write (x y : bytes) (p : Serial) :
  Serial_write y (Serial_write x p) = Serial_write (x ++ y) p.
Proof. unfold Serial_write, set_written. simpl. now rewrite app_assoc. Qed.

(** A read changes nothing but the input buffer. *)
Lemma Serial_read_fields (size : nat) (p : Serial) :
  port (snd (Serial_read size p)) = port p /\
  is_open (snd (Serial_read size p)) = is_open p /\
  timeout (snd (Serial_read size p)) = timeout p /\
  written (snd (Serial_read size p)) = written p.
Proof. unfold Serial_read. destruct (incoming p); repeat split. Qed.

Lemma handshake_split (command : string) (p : Serial) :
  Serial_read 1 (Serial_write (b command) p)
  = (reply command p, after_handshake command p).
Proof. unfold reply, after_handshake. now destruct (Serial_read _ _). Qed.

Lemma after_handshake_fields (command : string) (p : Serial) :
  port (after_handshake command p) = port p /\
  is_open (after_handshake command p) = is_open p /\
  timeout (after_handshake command p) = timeout p /\
  written (after_handshake command p) = written p ++ b command.
Proof.
  unfold after_handshake.
  destruct (Serial_read_fields 1 (Serial_write (b command) p))
    as (-> & -> & -> & ->).
  repeat split.
Qed.

(** ** The methods, as one step each *)

Lemma start_run (p : Serial) :
  start p =
  (if bytes_eqb (reply "S" p) (b "S") then Return tt
   else Raise (SyncBoxException (Unable_to_start_session (reply "S" p))),
   after_handshake "S" p).
Proof.
  unfold start, bind, port_write, port_read, time_sleep, ret, raise.
  rewrite handshake_split. now destruct (bytes_eqb _ _).
Qed.

Lemma stop_run (p : Serial) :
  stop p =
  (if bytes_eqb (reply "A" p) (b "A") then Return tt
   else Raise (SyncBoxException Unable_to_stop_session),
   after_handshake "A" p).
Proof.
  unfold stop, bind, port_write, port_read, time_sleep, ret, raise.
  rewrite handshake_split. now destruct (bytes_eqb _ _).
Qed.

Lemma close_run (p : Serial) :
  close p =
  if bytes_eqb (reply "D" p) (b "D")
  then (Return tt, Serial_close (after_handshake "D" p))
  else (Raise (SyncBoxException Unable_to_disconnect), after_handshake "D" p).
Proof.
  unfold close, bind, port_write, port_read, time_sleep, ret, raise, port_close.
  rewrite handshake_split. now destruct (bytes_eqb _ _).
Qed.

Lemma getTrigger_run (t : option Q) (p : Serial) :
  getTrigger t p =
  (decode_utf8 (fst (Serial_read 1 (set_timeout t p))),
   set_timeout None (snd (Serial_read 1 (set_timeout t p)))).
Proof.
  unfold getTrigger, bind, port_set_timeout, port_read, lift.
  now destruct (Serial_read _ _).
Qed.

Lemma readCurrentInputBuffer_run (p : Serial) :
  readCurrentInputBuffer p =
  (decode_utf8 (fst (Serial_read (in_waiting p) p)),
   snd (Serial_read (in_waiting p) p)).
Proof.
  unfold readCurrentInputBuffer, bind, port_in_waiting, port_read, lift.
  now destruct (Serial_read _ _).
Qed.

(** ** [_configure] *)

Lemma configure_handshake_failed (self : SyncBox) (p : Serial) :
  reply "R" p <> b "R" ->
  _configure self p = (Raise configuration_failed, after_handshake "R" p).
Proof.
  intros H. unfold _configure, bind, port_write, port_read, time_sleep, ret.
  rewrite handshake_split.
  destruct (bytes_eqb (reply "R" p) (b "R")) eqn:E.
  - apply bytes_eqb_eq in E. contradiction.
  - reflexivity.
Qed.

(** One line [self.port.write(self._stringVar(...))]: either the field is
    written, or its exception ends the run with what was written so far. *)
Ltac write_field :=
  match goal with
  | |- context [lift (_stringVar ?v)] =>
      unfold lift at 1; destruct (_stringVar v) as [?f|?e];
      [ cbn [first_failure fields_before_failure]
      | cbn [first_failure fields_before_failure];
        rewrite ?Serial_write_write, <- ?app_assoc, ?app_nil_r; reflexivity ]
  end.

(** Once ['R'] is confirmed, [_configure] writes the fields in front of the
    first one that cannot be encoded and raises its exception; when all can
    be encoded it writes them all, reads the echo and checks its length. *)
Lemma configure_run (self : SyncBox) (p : Serial) :
  reply "R" p = b "R" ->
  _configure self p =
  let sent := fields_before_failure (encoded_fields self) in
  let p1 := Serial_write sent (after_handshake "R" p) in
  match first_failure (encoded_fields self) with
  | Some e => (Raise e, p1)
  | None =>
      (if (List.length (fst (Serial_read 48 p1)) =? 48)%nat
       then Return tt else Raise configuration_failed,
       snd (Serial_read 48 p1))
  end.
Proof.
  intros H. unfold _configure, bind, port_write, port_read, time_sleep, ret.
  rewrite handshake_split, H.
  replace (bytes_eqb (b "R") (b "R")) with true by reflexivity.
  cbv beta iota match zeta delta [negb].
  unfold encoded_fields.
  do 8 write_field.
  unfold mode_flag.
  rewrite ?Serial_write_write.
  destruct (simulation self);
    rewrite ?Serial_write_write, <- ?app_assoc, ?app_nil_r;
    destruct (Serial_read _ _) as [echo p2]; cbn [fst snd];
    change (12 * 4)%nat with 48%nat;
    destruct (List.length echo =? 48)%nat; reflexivity.
Qed.

Lemma first_failure_in_range (l : list bytes) :
  first_failure (map Return l) = None.
Proof. induction l; simpl; auto. Qed.

Lemma fields_before_failure_in_range (l : list bytes) :
  fields_before_failure (map Return l) = List.concat l.
Proof. induction l; simpl; congruence. Qed.

Lemma encoded_fields_in_range (self : SyncBox) :
  parameters_in_range self ->
  encoded_fields self = map Return (configuration_fields self).
Proof.
  intros (H1 & H2 & H3 & H4 & H5 & H6 & H7 & H8).
  unfold encoded_fields, configuration_fields. cbn [map].
  now rewrite !stringVar_field4 by assumption.
Qed.

(** A parameter that cannot be encoded shows as a failing field. *)
Lemma first_failure_exists (self : SyncBox) (v : Z) (e : exn) :
  In v (parameters self) -> _stringVar v = Raise e ->
  exists e', first_failure (encoded_fields self) = Some e'.
Proof.
  intros Hin Hv.
  destruct (first_failure (encoded_fields self)) as [e'|] eqn:Hf;
    [now exists e'|].
  exfalso. unfold encoded_fields in Hf. cbn [first_failure] in Hf.
  destruct (_stringVar (num_volumes self)) eqn:E1; [|discriminate].
  destruct (_stringVar (num_slices self)) eqn:E2; [|discriminate].
  destruct (_stringVar (pulse_length self)) eqn:E3; [|discriminate].
  destruct (_stringVar (TR_time self)) eqn:E4; [|discriminate].
  destruct (_stringVar (trigger_slice self)) eqn:E5; [|discriminate].
  destruct (_stringVar (trigger_volume self)) eqn:E6; [|discriminate].
  destruct (_stringVar (optional_trigger_slice self)) eqn:E7; [|discriminate].
  destruct (_stringVar (optional_trigger_volume self)) eqn:E8; [|discriminate].
  unfold parameters in Hin. cbn [In] in Hin.
  repeat (destruct Hin as [<-|Hin]; [congruence|]). exact Hin.
Qed.

(** Scenario 3 of the specification: the default configuration. *)
Example configure_default :
  _configure default_SyncBox (answering [b "R"; echo48])
  = (Return tt,
     mkSerial "COM1" 57600 (Some (2 # 10)%Q) true
       (b "R000000160001010030000001000100000000000000000000") []).
Proof. reflexivity. Qed.

(** C1: when the eight parameters are in [0, 9999] and the device confirms
    ['R'], [_configure] writes after the ['R'] the twelve fields of the
    protocol, in its order, four bytes each and 48 bytes in all; it then
    returns normally exactly when the read of the echo returns 48 bytes,
    whatever these bytes are, and raises otherwise. *)
Theorem configure_sends_twelve_fields (self : SyncBox) (p : Serial) :
  parameters_in_range self ->
  reply "R" p = b "R" ->
  let sent := List.concat (configuration_fields self) in
  let echo := fst (Serial_read 48 (Serial_write sent (after_handshake "R" p))) in
  List.length (configuration_fields self) = 12%nat /\
  Forall (fun field => List.length field = 4%nat) (configuration_fields self) /\
  List.length sent = 48%nat /\
  written (snd (_configure self p)) = written p ++ b "R" ++ sent /\
  (fst (_configure self p) = Return tt <-> List.length echo = 48%nat) /\
  (List.length echo <> 48%nat ->
   fst (_configure self p) = Raise configuration_failed).
Proof.
  intros Hrange Hreply sent echo.
  assert (Hrun := configure_run self p Hreply). cbv zeta in Hrun.
  rewrite (encoded_fields_in_range self Hrange) in Hrun.
  rewrite first_failure_in_range, fields_before_failure_in_range in Hrun.
  fold sent in Hrun. fold echo in Hrun. rewrite Hrun. cbn [fst snd].
  split; [reflexivity|].
  split.
  { unfold configuration_fields, mode_flag.
    repeat constructor. now destruct (simulation self). }
  split.
  { unfold sent, configuration_fields, mode_flag.
    now destruct (simulation self). }
  split.
  { destruct (Serial_read_fields 48 (Serial_write sent (after_handshake "R" p)))
      as (_ & _ & _ & ->).
    unfold Serial_write at 1. cbn [written set_written].
    destruct (after_handshake_fields "R" p) as (_ & _ & _ & ->).
    now rewrite app_assoc. }
  destruct (List.length echo =? 48)%nat eqn:E.
  - apply Nat.eqb_eq in E. split; [tauto | congruence].
  - apply Nat.eqb_neq in E. split; [|reflexivity].
    split; [discriminate | contradiction].
Qed.

(** C1 on the default configuration, with a device that confirms ['R'] and
    echoes 48 bytes. *)
Lemma configure_sends_twelve_fields_witness :
  parameters_in_range default_SyncBox /\
  reply "R" (answering [b "R"; echo48]) = b "R" /\
  written (snd (_configure default_SyncBox (answering [b "R"; echo48])))
  = b "R000000160001010030000001000100000000000000000000" /\
  fst (_configure default_SyncBox (answering [b "R"; echo48])) = Return tt.
Proof.
  assert (H1 : parameters_in_range default_SyncBox)
    by (unfold parameters_in_range, in_field_range; simpl; lia).
  assert (H2 : reply "R" (answering [b "R"; echo48]) = b "R") by reflexivity.
  destruct (configure_sends_twelve_fields default_SyncBox
              (answering [b "R"; echo48]) H1 H2) as (_ & _ & _ & Hw & Hr & _).
  split; [exact H1|]. split; [exact H2|]. split; [exact Hw|].
  apply Hr. reflexivity.
Defined.

(** C7 fails: with [num_slices = 10000] the encoding of the third field
    raises, and by then [_configure] has written ['R'] and the two fields
    ["0000"] and ["0016"] to a port on which nothing had been written. *)
Lemma configure_writes_before_failure :
  In (num_slices too_many_slices) (parameters too_many_slices) /\
  _stringVar (num_slices too_many_slices)
  = Raise (SyncBoxException (Parameter_unsupported 10000)) /\
  fst (_configure too_many_slices (answering [b "R"]))
  = Raise (SyncBoxException (Parameter_unsupported 10000)) /\
  written (answering [b "R"]) = [] /\
  written (snd (_configure too_many_slices (answering [b "R"])))
  = b "R00000016".
Proof. split; [right; now left|]. repeat split. Qed.

(** C7, amended: when some parameter cannot be encoded and the device has
    confirmed ['R'], [_configure] raises the exception of the first field
    that cannot be encoded; the ['R'] and the fields in front of that field
    have been written, no byte of that field or of a later one is, and the
    echo is not read. *)
Theorem configure_stops_at_failing_field (self : SyncBox) (p : Serial)
    (v : Z) (e : exn) :
  In v (parameters self) ->
  _stringVar v = Raise e ->
  reply "R" p = b "R" ->
  exists e',
    first_failure (encoded_fields self) = Some e' /\
    fst (_configure self p) = Raise e' /\
    written (snd (_configure self p))
    = written p ++ b "R" ++ fields_before_failure (encoded_fields self) /\
    incoming (snd (_configure self p)) = incoming (after_handshake "R" p).
Proof.
  intros Hin Hv Hreply.
  destruct (first_failure_exists self v e Hin Hv) as [e' Hfail].
  exists e'. split; [exact Hfail|].
  rewrite configure_run by exact Hreply. cbv zeta.
  rewrite Hfail. cbn [fst snd]. split; [reflexivity|]. split.
  - unfold Serial_write. cbn [written set_written].
    destruct (after_handshake_fields "R" p) as (_ & _ & _ & ->).
    now rewrite app_assoc.
  - reflexivity.
Qed.

(** C7, amended, with [num_slices = 10000]: ['R'], ["0000"] and ["0016"]
    are written and the echo stays in the input buffer. *)
Lemma configure_stops_at_failing_field_witness :
  In 10000 (parameters too_many_slices) /\
  _stringVar 10000 = Raise (SyncBoxException (Parameter_unsupported 10000)) /\
  reply "R" (answering [b "R"; echo48]) = b "R" /\
  exists e',
    first_failure (encoded_fields too_many_slices) = Some e' /\
    fst (_configure too_many_slices (answering [b "R"; echo48])) = Raise e' /\
    written (snd (_configure too_many_slices (answering [b "R"; echo48])))
    = b "R" ++ b "0000" ++ b "0016" /\
    incoming (snd (_configure too_many_slices (answering [b "R"; echo48])))
    = [echo48].
Proof.
  assert (H0 : In 10000 (parameters too_many_slices)) by (right; now left).
  assert (H1 : _stringVar 10000
               = Raise (SyncBoxException (Parameter_unsupported 10000)))
    by reflexivity.
  assert (H2 : reply "R" (answering [b "R"; echo48]) = b "R") by reflexivity.
  split; [exact H0|]. split; [exact H1|]. split; [exact H2|].
  exact (configure_stops_at_failing_field too_many_slices
           (answering [b "R"; echo48]) 10000 _ H0 H1 H2).
Defined.

(** ** [_findSyncBox] *)

Lemma probe_new (name : string) (device : list bytes) :
  probe (mkSerial name 57600 None true [] device)
  = (Return (bytes_eqb (first_read device) (b "C")), probed name device).
Proof.
  unfold probed, probe, bind, port_set_timeout, port_write, port_read,
    time_sleep, ret, Serial_read.
  destruct device as [|chunk rest]; reflexivity.
Qed.

Lemma probed_fields (name : string) (device : list bytes) :
  port (probed name device) = name /\
  is_open (probed name device) = true /\
  timeout (probed name device) = Some (2 # 10)%Q /\
  written (probed name device) = b "C".
Proof.
  unfold probed, probe, bind, port_set_timeout, port_write, port_read,
    time_sleep, ret, Serial_read.
  destruct device as [|chunk rest]; repeat split.
Qed.

(** One turn of the loop. *)
Lemma findSyncBox_from_cons (w : world) (name : string) (rest : list string)
    (created : list Serial) :
  _findSyncBox_from w (name :: rest) created =
  match w name with
  | None => _findSyncBox_from w rest created
  | Some device =>
      if answers_C w name
      then (Return (probed name device), created ++ [probed name device])
      else _findSyncBox_from w rest (created ++ [probed name device])
  end.
Proof.
  cbn [_findSyncBox_from]. unfold Serial_new, answers_C.
  destruct (w name) as [device|]; [|reflexivity].
  rewrite probe_new. now destruct (bytes_eqb _ _).
Qed.

(** The ports opened are the candidates that can be opened, up to the first
    that answers ['C']. *)
Lemma findSyncBox_from_names (w : world) (availablePorts : list string) :
  forall created,
    map port (snd (_findSyncBox_from w availablePorts created))
    = map port created ++ filter (can_open w) (scanned w availablePorts).
Proof.
  induction availablePorts as [|name rest IH]; intros created.
  - simpl. now rewrite app_nil_r.
  - rewrite findSyncBox_from_cons. cbn [scanned].
    assert (Hopen : can_open w name
                    = match w name with Some _ => true | None => false end)
      by reflexivity.
    unfold answers_C.
    destruct (w name) as [device|] eqn:E.
    + destruct (probed_fields name device) as [Hname _].
      destruct (bytes_eqb _ _).
      * cbn [snd filter]. rewrite Hopen, map_app. simpl. now rewrite Hname.
      * rewrite IH. cbn [filter]. rewrite Hopen, map_app, <- app_assoc.
        simpl. now rewrite Hname.
    + rewrite IH. cbn [filter]. now rewrite Hopen.
Qed.

Lemma findSyncBox_from_Forall (P : Serial -> Prop) (w : world)
    (availablePorts : list string) :
  (forall name device, w name = Some device -> P (probed name device)) ->
  forall created, Forall P created ->
    Forall P (snd (_findSyncBox_from w availablePorts created)).
Proof.
  intros HP. induction availablePorts as [|name rest IH]; intros created Hc.
  - exact Hc.
  - rewrite findSyncBox_from_cons.
    destruct (w name) as [device|] eqn:E; [|now apply IH].
    assert (Hc' : Forall P (created ++ [probed name device])).
    { apply Forall_app. split; [exact Hc|]. constructor; [|constructor].
      now apply HP. }
    destruct (answers_C w name); [exact Hc' | now apply IH].
Qed.

Lemma findSyncBox_from_found (w : world) (availablePorts : list string) :
  forall created name,
    find (answers_C w) availablePorts = Some name ->
    exists device,
      w name = Some device /\
      fst (_findSyncBox_from w availablePorts created)
      = Return (probed name device).
Proof.
  induction availablePorts as [|n rest IH]; intros created name Hf.
  - discriminate.
  - rewrite findSyncBox_from_cons. cbn [find] in Hf.
    destruct (answers_C w n) eqn:Ea.
    + injection Hf as ->. unfold answers_C in Ea.
      destruct (w name) as [device|] eqn:E; [|discriminate].
      exists device. now split.
    + destruct (w n) as [device|] eqn:E; now apply IH.
Qed.

Lemma findSyncBox_from_not_found (w : world) (availablePorts : list string) :
  forall created,
    find (answers_C w) availablePorts = None ->
    fst (_findSyncBox_from w availablePorts created)
    = Raise (SyncBoxException Unable_to_find_SyncBox).
Proof.
  induction availablePorts as [|n rest IH]; intros created Hf.
  - reflexivity.
  - rewrite findSyncBox_from_cons. cbn [find] in Hf.
    destruct (answers_C w n) eqn:Ea; [discriminate|].
    destruct (w n) as [device|]; now apply IH.
Qed.

Lemma first_responder_find (w : world) (availablePorts : list string) :
  forall k name,
    first_responder w availablePorts k name ->
    find (answers_C w) availablePorts = Some name /\
    scanned w availablePorts = firstn (S k) availablePorts.
Proof.
  induction availablePorts as [|n rest IH]; intros k name (Hn & Ha & Hb).
  - destruct k; discriminate.
  - destruct k as [|k].
    + injection Hn as ->. cbn [find scanned]. rewrite Ha. now split.
    + cbn [find scanned]. rewrite (Hb 0%nat n) by (simpl; (lia || reflexivity)).
      destruct (IH k name) as [Hf Hs].
      { repeat split; [exact Hn | exact Ha |].
        intros j other Hj Ho. apply (Hb (S j)); [lia | exact Ho]. }
      split; [exact Hf|]. rewrite Hs. reflexivity.
Qed.

Lemma find_answers_C_none (w : world) (availablePorts : list string) :
  (forall name, In name availablePorts -> answers_C w name = false) ->
  find (answers_C w) availablePorts = None.
Proof.
  induction availablePorts as [|n rest IH]; intros H; [reflexivity|].
  cbn [find]. rewrite (H n) by now left. apply IH. intros name Hin.
  apply H. now right.
Qed.

(** Scenario 5 of the specification. *)
Example findSyncBox_COM2 :
  _findSyncBox three_ports ["COM1"; "COM2"; "COM3"]
  = (Return (mkSerial "COM2" 57600 (Some (2 # 10)%Q) true (b "C") []),
     [mkSerial "COM1" 57600 (Some (2 # 10)%Q) true (b "C") [];
      mkSerial "COM2" 57600 (Some (2 # 10)%Q) true (b "C") []]).
Proof. reflexivity. Qed.

(** C4: when the candidate at position [k] is the first that opens and
    answers the probe with ['C'], [_findSyncBox] returns an open port bound
    to it, and the ports it opened are the candidates among the first
    [k + 1] that can be opened: none after position [k] is opened or
    probed, and a candidate that cannot be opened is passed over.  When no
    candidate answers ['C'], it raises "Unable to find SyncBox". *)
Theorem findSyncBox_first_responder (w : world) (availablePorts : list string) :
  (forall k name,
     first_responder w availablePorts k name ->
     exists com,
       fst (_findSyncBox w availablePorts) = Return com /\
       port com = name /\
       is_open com = true /\
       map port (snd (_findSyncBox w availablePorts))
       = filter (can_open w) (firstn (S k) availablePorts)) /\
  ((forall name, In name availablePorts -> answers_C w name = false) ->
   fst (_findSyncBox w availablePorts)
   = Raise (SyncBoxException Unable_to_find_SyncBox)).
Proof.
  unfold _findSyncBox. split.
  - intros k name Hk.
    destruct (first_responder_find w availablePorts k name Hk) as [Hf Hs].
    destruct (findSyncBox_from_found w availablePorts [] name Hf)
      as (device & Hw & Hr).
    exists (probed name device).
    destruct (probed_fields name device) as (Hn & Ho & _).
    repeat split; try assumption.
    rewrite findSyncBox_from_names, Hs. reflexivity.
  - intros Hnone. apply findSyncBox_from_not_found.
    now apply find_answers_C_none.
Qed.

(** C4 on four candidates of which the third is the first to answer, and on
    two candidates of which none answers. *)
Lemma findSyncBox_first_responder_witness :
  first_responder three_ports ["COM0"; "COM1"; "COM2"; "COM3"] 2 "COM2" /\
  (forall name, In name ["COM0"; "COM1"] -> answers_C three_ports name = false) /\
  (exists com,
     fst (_findSyncBox three_ports ["COM0"; "COM1"; "COM2"; "COM3"]) = Return com /\
     port com = "COM2" /\ is_open com = true /\
     map port (snd (_findSyncBox three_ports ["COM0"; "COM1"; "COM2"; "COM3"]))
     = ["COM1"; "COM2"]) /\
  fst (_findSyncBox three_ports ["COM0"; "COM1"])
  = Raise (SyncBoxException Unable_to_find_SyncBox).
Proof.
  assert (H1 : first_responder three_ports
                 ["COM0"; "COM1"; "COM2"; "COM3"] 2 "COM2").
  { repeat split. intros j other Hj Hn.
    destruct j as [|[|j]]; [| |lia]; injection Hn as <-; reflexivity. }
  assert (H2 : forall name, In name ["COM0"; "COM1"] ->
                            answers_C three_ports name = false).
  { intros name [<-|[<-|[]]]; reflexivity. }
  split; [exact H1|]. split; [exact H2|]. split.
  - exact (proj1 (findSyncBox_first_responder three_ports
                    ["COM0"; "COM1"; "COM2"; "COM3"]) 2%nat "COM2" H1).
  - exact (proj2 (findSyncBox_first_responder three_ports ["COM0"; "COM1"]) H2).
Defined.



(** ** [start] and [stop] *)



(** ** [close] *)

(** C6 fails: the device answers ['X'] to ['D']; [close] raises and the
    port is still open. *)
Lemma close_leaves_port_open :
  reply "D" (answering [b "X"]) = b "X" /\
  fst (close (answering [b "X"]))
  = Raise (SyncBoxException Unable_to_disconnect) /\
  is_open (snd (close (answering [b "X"]))) = true.
Proof. repeat split. Qed.

(** C6, amended: [close] returns and closes the port when the device
    confirms ['D']; with any other answer, or none, it raises "Unable to
    disconnect" and leaves the port as open as it was. *)
Theorem close_releases_when_confirmed (p : Serial) :
  (reply "D" p = b "D" ->
   fst (close p) = Return tt /\ is_open (snd (close p)) = false) /\
  (reply "D" p <> b "D" ->
   fst (close p) = Raise (SyncBoxException Unable_to_disconnect) /\
   is_open (snd (close p)) = is_open p).
Proof.
  rewrite close_run. split; intros H.
  - rewrite H. split; reflexivity.
  - apply bytes_eqb_false in H. rewrite H. split; [reflexivity|].
    cbn [snd]. now destruct (after_handshake_fields "D" p) as (_ & -> & _).
Qed.

(** C6, amended, with a device that confirms ['D'] and with a silent one. *)
Lemma close_releases_when_confirmed_witness :
  reply "D" (answering [b "D"]) = b "D" /\
  reply "D" (answering []) <> b "D" /\
  is_open (snd (close (answering [b "D"]))) = false /\
  is_open (snd (close (answering []))) = true.
Proof.
  assert (H1 : reply "D" (answering [b "D"]) = b "D") by reflexivity.
  assert (H2 : reply "D" (answering []) <> b "D") by discriminate.
  split; [exact H1|]. split; [exact H2|]. split.
  - exact (proj2 (proj1 (close_releases_when_confirmed (answering [b "D"])) H1)).
  - exact (proj2 (proj2 (close_releases_when_confirmed (answering [])) H2)).
Defined.

(** ** [getTrigger] *)

Lemma decode_one_byte (x : byte) :
  decode_utf8 [x] =
  if (Byte.to_N x <? 128)%N then Return (String (ascii_of_byte x) "")
  else Raise UnicodeDecodeError.
Proof. destruct x; reflexivity. Qed.

Lemma trigger_event_one_byte (x : byte) :
  trigger_event (String (ascii_of_byte x) "") = event_of_byte x.
Proof. destruct x; reflexivity. Qed.

(** Scenario 4 of the specification: nothing arrives, the empty string is
    returned. *)
Example getTrigger_nothing :
  fst (getTrigger (Some 0%Q) (answering [])) = Return "".
Proof. reflexivity. Qed.

(** C8 fails: on the byte [0xFF] the decoding raises. *)
Lemma getTrigger_raises_on_xff :
  fst (getTrigger (Some 0%Q) (answering [[xff]])) = Raise UnicodeDecodeError.
Proof. reflexivity. Qed.

(** C8, amended: when the next byte [x] of the device is one of the 128
    values below [0x80], [getTrigger] returns the one-character string of
    [x], which stands for the event of the table: ['s'], ['a'], ['b'],
    ['c'], ['d'] for [Sync], [LeftThumb], [LeftIndex], [RightIndex],
    [RightThumb], any other for [Unknown].  When [x] is [0x80] or above,
    [getTrigger] raises [UnicodeDecodeError]. *)
Theorem getTrigger_decodes_ascii (t : option Q) (p : Serial) (x : byte)
    (more : bytes) (rest : list bytes) :
  incoming p = (x :: more) :: rest ->
  ((Byte.to_N x < 128)%N ->
   fst (getTrigger t p) = Return (String (ascii_of_byte x) "") /\
   trigger_event (String (ascii_of_byte x) "") = event_of_byte x) /\
  ((128 <= Byte.to_N x)%N -> fst (getTrigger t p) = Raise UnicodeDecodeError).
Proof.
  intros Hin. rewrite getTrigger_run. cbn [fst].
  unfold Serial_read. cbn [incoming set_timeout]. rewrite Hin. cbn [fst firstn].
  rewrite decode_one_byte. split; intros Hx.
  - apply N.ltb_lt in Hx. rewrite Hx. split; [reflexivity|].
    apply trigger_event_one_byte.
  - apply N.ltb_ge in Hx. now rewrite Hx.
Qed.

(** C8, amended, on the bytes ['s'] and [0xFF]. *)
Lemma getTrigger_decodes_ascii_witness :
  incoming (answering [b "sab"]) = ("s"%byte :: b "ab") :: [] /\
  (Byte.to_N "s"%byte < 128)%N /\
  fst (getTrigger None (answering [b "sab"])) = Return "s" /\
  trigger_event "s" = Sync /\
  incoming (answering [[xff]]) = (xff :: []) :: [] /\
  (128 <= Byte.to_N xff)%N /\
  fst (getTrigger None (answering [[xff]])) = Raise UnicodeDecodeError.
Proof.
  assert (H1 : incoming (answering [b "sab"]) = ("s"%byte :: b "ab") :: [])
    by reflexivity.
  assert (H2 : (Byte.to_N "s"%byte < 128)%N) by reflexivity.
  assert (H3 : incoming (answering [[xff]]) = (xff :: []) :: []) by reflexivity.
  assert (H4 : (128 <= Byte.to_N xff)%N) by discriminate.
  split; [exact H1|]. split; [exact H2|].
  split; [exact (proj1 (proj1 (getTrigger_decodes_ascii None _ _ _ _ H1) H2))|].
  split; [exact (proj2 (proj1 (getTrigger_decodes_ascii None _ _ _ _ H1) H2))|].
  split; [exact H3|]. split; [exact H4|].
  exact (proj2 (getTrigger_decodes_ascii None _ _ _ _ H3) H4).
Defined.

(** ** The [timeout] field *)







(** ** More on [_stringVar] *)

Lemma stringVar_length (v : Z) :
  fits_four_characters v ->
  List.length (bytes_of_string (pad_left 4 (str v))) = 4%nat.
Proof.
  unfold fits_four_characters, pad_left. intros Hv.
  destruct (Z_lt_le_dec v 0) as [Hneg|Hpos].
  - rewrite str_neg by lia.
    assert (H : 0 <= - v <= 9999) by lia.
    destruct (digits_below_10000 (- v) H) as [[H' ->]|[[H' ->]|[[H' ->]|[H' _]]]];
      try reflexivity. lia.
  - rewrite str_nonneg by lia.
    assert (H : 0 <= v <= 9999) by lia.
    destruct (digits_below_10000 v H) as [[H' ->]|[[H' ->]|[[H' ->]|[H' ->]]]];
      reflexivity.
Qed.

(** X1: [_stringVar] raises, with the message that names the parameter,
    exactly for the integers whose text is longer than four characters:
    those from 10000 up and those from -1000 down. *)
Theorem stringVar_raises_iff (v : Z) :
  _stringVar v = Raise (SyncBoxException (Parameter_unsupported v))
  <-> (10000 <= v \/ v <= -1000).
Proof.
  split; [|apply stringVar_raises].
  intros H. destruct (Z_le_gt_dec 10000 v) as [|Hhi]; [now left|].
  destruct (Z_le_gt_dec v (-1000)) as [|Hlo]; [now right|].
  rewrite stringVar_returns in H by lia. discriminate.
Qed.

(** X2: a field returned by [_stringVar] always has four bytes: it is the
    text of the parameter padded with zeros on the left, and the parameter
    lies between -999 and 9999. *)
Theorem stringVar_returns_four_bytes (v : Z) (f : bytes) :
  _stringVar v = Return f ->
  fits_four_characters v /\
  List.length f = 4%nat /\
  f = bytes_of_string (pad_left 4 (str v)).
Proof.
  intros H.
  assert (Hv : fits_four_characters v).
  { unfold fits_four_characters.
    destruct (Z_le_gt_dec 10000 v) as [Hhi|Hhi];
      [rewrite stringVar_raises in H by lia; discriminate|].
    destruct (Z_le_gt_dec v (-1000)) as [Hlo|Hlo];
      [rewrite stringVar_raises in H by lia; discriminate|].
    lia. }
  split; [exact Hv|].
  rewrite stringVar_returns in H by exact Hv. injection H as <-.
  split; [now apply stringVar_length | reflexivity].
Qed.

(** X2 on the parameter 3000. *)
Lemma stringVar_returns_four_bytes_witness :
  _stringVar 3000 = Return (b "3000") /\
  fits_four_characters 3000 /\ List.length (b "3000") = 4%nat.
Proof.
  assert (H : _stringVar 3000 = Return (b "3000")) by reflexivity.
  destruct (stringVar_returns_four_bytes 3000 (b "3000") H) as (Hv & Hl & _).
  split; [exact H|]. split; [exact Hv | exact Hl].
Defined.

(** X3: for a negative parameter down to -999, [_stringVar] returns a
    field that holds the minus sign and does not read back as a decimal
    number. *)
Theorem stringVar_negative_field (v : Z) :
  -999 <= v <= -1 ->
  exists f,
    _stringVar v = Return f /\
    In "-"%byte f /\
    decode f = None.
Proof.
  intros Hv. exists (bytes_of_string (pad_left 4 (str v))).
  split; [apply stringVar_returns; lia|].
  unfold pad_left. rewrite str_neg by lia.
  assert (H : 0 <= - v <= 9999) by lia.
  destruct (digits_below_10000 (- v) H) as [[H' ->]|[[H' ->]|[[H' ->]|[H' _]]]];
    [| | |lia]; split; simpl; auto.
Qed.

(** X3 on the parameter -42. *)
Lemma stringVar_negative_field_witness :
  -999 <= -42 <= -1 /\
  exists f, _stringVar (-42) = Return f /\ In "-"%byte f /\ decode f = None.
Proof.
  assert (H : -999 <= -42 <= -1) by lia.
  split; [exact H|]. exact (stringVar_negative_field (-42) H).
Defined.

(** ** More on the handshakes *)

(** X4: [start] returns exactly when the device answers ['S'] and
    otherwise raises "Unable to start session" with the bytes it read;
    [stop] returns exactly when the device answers ['A'] and otherwise
    raises "Unable to stop session".  Either way the command byte, and
    nothing else, has been written. *)
Theorem start_stop_outcome (p : Serial) :
  (fst (start p) = Return tt <-> reply "S" p = b "S") /\
  (fst (start p) <> Return tt ->
   fst (start p)
   = Raise (SyncBoxException (Unable_to_start_session (reply "S" p)))) /\
  written (snd (start p)) = written p ++ b "S" /\
  (fst (stop p) = Return tt <-> reply "A" p = b "A") /\
  (fst (stop p) <> Return tt ->
   fst (stop p) = Raise (SyncBoxException Unable_to_stop_session)) /\
  written (snd (stop p)) = written p ++ b "A".
Proof.
  rewrite start_run, stop_run. cbn [fst snd].
  destruct (after_handshake_fields "S" p) as (_ & _ & _ & ->).
  destruct (after_handshake_fields "A" p) as (_ & _ & _ & ->).
  repeat split.
  - destruct (bytes_eqb _ _) eqn:E; [intros _; now apply bytes_eqb_eq | discriminate].
  - intros H. apply bytes_eqb_eq in H. now rewrite H.
  - destruct (bytes_eqb _ _); [contradiction | reflexivity].
  - destruct (bytes_eqb _ _) eqn:E; [intros _; now apply bytes_eqb_eq | discriminate].
  - intros H. apply bytes_eqb_eq in H. now rewrite H.
  - destruct (bytes_eqb _ _); [contradiction | reflexivity].
Qed.

(** ** More on [_configure] *)

Lemma Serial_read_write (size : nat) (x : bytes) (p : Serial) :
  Serial_read size (Serial_write x p)
  = (fst (Serial_read size p), Serial_write x (snd (Serial_read size p))).
Proof.
  unfold Serial_read, Serial_write. simpl. destruct (incoming p); reflexivity.
Qed.

(** X5: when the device does not confirm ['R'], [_configure] raises
    "Unable to configure SyncBox" having written the ['R'] only: no field
    is sent and no parameter is encoded, so a parameter that is out of
    range is not reported. *)
Theorem configure_without_confirmation (self : SyncBox) (p : Serial) :
  reply "R" p <> b "R" ->
  fst (_configure self p) = Raise configuration_failed /\
  written (snd (_configure self p)) = written p ++ b "R".
Proof.
  intros H. rewrite configure_handshake_failed by exact H. cbn [fst snd].
  split; [reflexivity|].
  now destruct (after_handshake_fields "R" p) as (_ & _ & _ & ->).
Qed.

(** X5 with a silent device and [num_slices = 10000]. *)
Lemma configure_without_confirmation_witness :
  reply "R" (answering []) <> b "R" /\
  fst (_configure too_many_slices (answering [])) = Raise configuration_failed /\
  written (snd (_configure too_many_slices (answering []))) = b "R".
Proof.
  assert (H : reply "R" (answering []) <> b "R") by discriminate.
  split; [exact H|].
  exact (configure_without_confirmation too_many_slices (answering []) H).
Defined.

(** What [_configure] has written when it ends, in every case. *)
Lemma configure_written (self : SyncBox) (p : Serial) :
  written (snd (_configure self p)) =
  written p ++ b "R" ++
  (if bytes_eqb (reply "R" p) (b "R")
   then fields_before_failure (encoded_fields self) else []).
Proof.
  destruct (bytes_eqb (reply "R" p) (b "R")) eqn:E.
  - apply bytes_eqb_eq in E. rewrite configure_run by exact E. cbv zeta.
    assert (Hw : written (Serial_write (fields_before_failure (encoded_fields self))
                            (after_handshake "R" p))
                 = written p ++ b "R" ++ fields_before_failure (encoded_fields self)).
    { unfold Serial_write. cbn [written set_written].
      destruct (after_handshake_fields "R" p) as (_ & _ & _ & ->).
      now rewrite app_assoc. }
    destruct (first_failure _); cbn [snd]; [exact Hw|].
    destruct (Serial_read_fields 48
      (Serial_write (fields_before_failure (encoded_fields self))
         (after_handshake "R" p))) as (_ & _ & _ & ->).
    exact Hw.
  - apply bytes_eqb_false in E. rewrite configure_handshake_failed by exact E.
    cbn [snd]. rewrite app_nil_r.
    now destruct (after_handshake_fields "R" p) as (_ & _ & _ & ->).
Qed.

Lemma fields_before_failure_length (l : list (result bytes)) :
  Forall (fun r => forall f, r = Return f -> List.length f = 4%nat) l ->
  exists k, (k <= List.length l)%nat /\
            List.length (fields_before_failure l) = (4 * k)%nat.
Proof.
  induction 1 as [|r l Hr Hl IH].
  - exists 0%nat. split; [simpl; lia | reflexivity].
  - destruct r as [f|e].
    + destruct IH as (k & Hk & Hlen). exists (S k). split; [simpl; lia|].
      cbn [fields_before_failure]. rewrite length_app, Hlen, (Hr f eq_refl). lia.
    + exists 0%nat. split; [simpl; lia | reflexivity].
Qed.

Lemma encoded_fields_lengths (self : SyncBox) :
  Forall (fun r => forall f, r = Return f -> List.length f = 4%nat)
         (encoded_fields self).
Proof.
  assert (Hs : forall v f, _stringVar v = Return f -> List.length f = 4%nat).
  { intros v f H. now destruct (stringVar_returns_four_bytes v f H) as (_ & ? & _). }
  assert (Hc : forall c : bytes, List.length c = 4%nat ->
                forall f, Return c = Return f -> List.length f = 4%nat).
  { intros c Hl f H. injection H as <-. exact Hl. }
  unfold encoded_fields, mode_flag.
  repeat apply Forall_cons; try apply Forall_nil; try apply Hs;
    try (apply Hc; reflexivity).
  destruct (simulation self); apply Hc; reflexivity.
Qed.

(** X6: however it ends, [_configure] has written ['R'] followed by whole
    four-byte fields, twelve at most: a field is never sent in part. *)
Theorem configure_writes_whole_fields (self : SyncBox) (p : Serial) :
  exists sent k,
    written (snd (_configure self p)) = written p ++ b "R" ++ sent /\
    List.length sent = (4 * k)%nat /\ (k <= 12)%nat.
Proof.
  destruct (fields_before_failure_length (encoded_fields self)
              (encoded_fields_lengths self)) as (k & Hk & Hlen).
  rewrite configure_written.
  destruct (bytes_eqb _ _).
  - exists (fields_before_failure (encoded_fields self)), k.
    split; [reflexivity|]. split; [exact Hlen | exact Hk].
  - exists [], 0%nat. split; [reflexivity|]. split; [reflexivity | lia].
Qed.

Lemma first_failure_none (self : SyncBox) :
  first_failure (encoded_fields self) = None <->
  Forall fits_four_characters (parameters self).
Proof.
  split.
  - intros Hf. apply Forall_forall. intros v Hin.
    unfold fits_four_characters.
    destruct (Z_le_gt_dec 10000 v) as [Hhi|Hhi].
    { destruct (first_failure_exists self v _ Hin
                  (stringVar_raises v (or_introl Hhi))) as [e He]. congruence. }
    destruct (Z_le_gt_dec v (-1000)) as [Hlo|Hlo].
    { destruct (first_failure_exists self v _ Hin
                  (stringVar_raises v (or_intror Hlo))) as [e He]. congruence. }
    lia.
  - intros H. unfold parameters in H.
    repeat match goal with
           | H : Forall _ (_ :: _) |- _ => inversion H; subst; clear H
           end.
    unfold encoded_fields. cbn [first_failure].
    now rewrite !stringVar_returns by assumption.
Qed.

(** X7: [_configure] returns normally exactly when the device confirms
    ['R'], the text of each of the eight parameters has at most four
    characters (the parameter is between -999 and 9999), and 48 bytes of
    echo are read. *)
Theorem configure_returns_iff (self : SyncBox) (p : Serial) :
  fst (_configure self p) = Return tt <->
  reply "R" p = b "R" /\
  Forall fits_four_characters (parameters self) /\
  List.length (fst (Serial_read 48 (after_handshake "R" p))) = 48%nat.
Proof.
  destruct (bytes_eqb (reply "R" p) (b "R")) eqn:E.
  - apply bytes_eqb_eq in E. rewrite configure_run by exact E. cbv zeta.
    rewrite Serial_read_write. cbn [fst].
    rewrite <- first_failure_none.
    destruct (first_failure (encoded_fields self)) as [e|]; cbn [fst].
    + split; [discriminate | intros (_ & H & _); discriminate].
    + destruct (List.length _ =? 48)%nat eqn:El.
      * apply Nat.eqb_eq in El. tauto.
      * apply Nat.eqb_neq in El. split; [discriminate | tauto].
  - apply bytes_eqb_false in E. rewrite configure_handshake_failed by exact E.
    cbn [fst]. split; [discriminate | tauto].
Qed.

(** ** What the methods leave alone *)

Lemma configure_is_open (self : SyncBox) (p : Serial) :
  is_open (snd (_configure self p)) = is_open p.
Proof.
  destruct (bytes_eqb (reply "R" p) (b "R")) eqn:E.
  - apply bytes_eqb_eq in E. rewrite configure_run by exact E. cbv zeta.
    destruct (after_handshake_fields "R" p) as (_ & Ho & _).
    destruct (first_failure _); cbn [snd].
    + exact Ho.
    + destruct (Serial_read_fields 48
        (Serial_write (fields_before_failure (encoded_fields self))
           (after_handshake "R" p))) as (_ & -> & _).
      exact Ho.
  - apply bytes_eqb_false in E. rewrite configure_handshake_failed by exact E.
    cbn [snd]. now destruct (after_handshake_fields "R" p) as (_ & -> & _).
Qed.

(** X8: the only method that closes the port is [close], and only when the
    device confirms ['D']; every other call, returning or raising, leaves
    the open flag as it was. *)
Theorem only_close_closes (self : SyncBox) (c : call) (p : Serial) :
  is_open (snd (call_method self c p)) =
  match c with
  | Call_close => if bytes_eqb (reply "D" p) (b "D") then false else is_open p
  | _ => is_open p
  end.
Proof.
  destruct c as [|t| | | |]; cbn [call_method].
  - rewrite readCurrentInputBuffer_run. cbn [snd].
    now destruct (Serial_read_fields (in_waiting p) p) as (_ & -> & _).
  - rewrite getTrigger_run. cbn [snd set_timeout is_open].
    now destruct (Serial_read_fields 1 (set_timeout t p)) as (_ & -> & _).
  - rewrite start_run. cbn [snd].
    now destruct (after_handshake_fields "S" p) as (_ & -> & _).
  - rewrite stop_run. cbn [snd].
    now destruct (after_handshake_fields "A" p) as (_ & -> & _).
  - pose proof (configure_is_open self p) as H.
    destruct (_configure self p). exact H.
  - rewrite close_run. destruct (bytes_eqb _ _); cbn [snd].
    + reflexivity.
    + now destruct (after_handshake_fields "D" p) as (_ & -> & _).
Qed.




(** ** More on the reading methods *)

Lemma getTrigger_first_byte (t : option Q) (p : Serial) (x : byte)
    (more : bytes) (rest : list bytes) :
  incoming p = (x :: more) :: rest ->
  getTrigger t p
  = (decode_utf8 [x],
     set_timeout None (set_incoming (requeue more rest) (set_timeout t p))).
Proof.
  intros Hin. rewrite getTrigger_run. unfold Serial_read.
  cbn [incoming set_timeout]. rewrite Hin. reflexivity.
Qed.

(** X10: when no byte arrives, [getTrigger] returns the empty string
    without raising, writes nothing and leaves the timeout at [None]. *)
Theorem getTrigger_nothing_received (t : option Q) (p : Serial) :
  first_read (incoming p) = [] ->
  fst (getTrigger t p) = Return "" /\
  written (snd (getTrigger t p)) = written p /\
  timeout (snd (getTrigger t p)) = None.
Proof.
  intros H. rewrite getTrigger_run. cbn [fst snd]. split; [|split].
  - unfold Serial_read. cbn [incoming set_timeout].
    unfold first_read in H. destruct (incoming p) as [|chunk rest].
    + reflexivity.
    + cbn [fst]. rewrite H. reflexivity.
  - cbn [set_timeout written].
    now destruct (Serial_read_fields 1 (set_timeout t p)) as (_ & _ & _ & ->).
  - reflexivity.
Qed.

(** X10 with a device that sends nothing at first. *)
Lemma getTrigger_nothing_received_witness :
  first_read (incoming (answering [[]; b "s"])) = [] /\
  fst (getTrigger (Some 0%Q) (answering [[]; b "s"])) = Return "".
Proof.
  assert (H : first_read (incoming (answering [[]; b "s"])) = []) by reflexivity.
  split; [exact H|].
  exact (proj1 (getTrigger_nothing_received (Some 0%Q) _ H)).
Defined.

Lemma decode_ascii_byte (x : byte) :
  is_ascii x -> decode_utf8 [x] = Return (String (ascii_of_byte x) "").
Proof.
  unfold is_ascii. intros H. rewrite decode_one_byte.
  apply N.ltb_lt in H. now rewrite H.
Qed.

(** X11: two calls of [getTrigger] in a row return the first two bytes
    that arrived, in their order: the second byte stays in the buffer for
    the second call. *)
Theorem getTrigger_in_arrival_order (t1 t2 : option Q) (p : Serial)
    (x y : byte) (more : bytes) (rest : list bytes) :
  incoming p = (x :: y :: more) :: rest ->
  is_ascii x -> is_ascii y ->
  fst (getTrigger t1 p) = Return (String (ascii_of_byte x) "") /\
  fst (getTrigger t2 (snd (getTrigger t1 p)))
  = Return (String (ascii_of_byte y) "").
Proof.
  intros Hin Hx Hy.
  rewrite (getTrigger_first_byte t1 p x (y :: more) rest Hin). cbn [fst snd].
  split; [now apply decode_ascii_byte|].
  destruct rest as [|chunk rest'].
  - rewrite (getTrigger_first_byte t2 _ y more []) by reflexivity.
    cbn [fst]. now apply decode_ascii_byte.
  - rewrite (getTrigger_first_byte t2 _ y (more ++ chunk) rest') by reflexivity.
    cbn [fst]. now apply decode_ascii_byte.
Qed.

(** X11 on the bytes ['s'] and ['a']. *)
Lemma getTrigger_in_arrival_order_witness :
  incoming (answering [b "sa"; b "b"]) = ("s"%byte :: "a"%byte :: []) :: [b "b"] /\
  is_ascii "s"%byte /\ is_ascii "a"%byte /\
  fst (getTrigger None (answering [b "sa"; b "b"])) = Return "s" /\
  fst (getTrigger None (snd (getTrigger None (answering [b "sa"; b "b"]))))
  = Return "a".
Proof.
  assert (H : incoming (answering [b "sa"; b "b"])
              = ("s"%byte :: "a"%byte :: []) :: [b "b"]) by reflexivity.
  assert (Hs : is_ascii "s"%byte) by reflexivity.
  assert (Ha : is_ascii "a"%byte) by reflexivity.
  split; [exact H|]. split; [exact Hs|]. split; [exact Ha|].
  exact (getTrigger_in_arrival_order None None _ _ _ _ _ H Hs Ha).
Defined.

Lemma utf8_valid_ascii (bs : bytes) : Forall is_ascii bs -> utf8_valid bs = true.
Proof.
  induction 1 as [|x bs Hx Hbs IH]; [reflexivity|].
  cbn [utf8_valid]. unfold in_range.
  replace (Byte.to_N x <=? 127)%N with true
    by (symmetry; apply N.leb_le; unfold is_ascii in Hx; lia).
  replace (0 <=? Byte.to_N x)%N with true
    by (symmetry; apply N.leb_le; lia).
  exact IH.
Qed.

(** X12: on an empty input buffer [readCurrentInputBuffer] returns the
    empty string and leaves the port untouched; on a buffer of ASCII bytes
    it returns all of them as one string, in order, and empties the
    buffer. *)
Theorem readCurrentInputBuffer_ascii (p : Serial) :
  (incoming p = [] -> readCurrentInputBuffer p = (Return "", p)) /\
  (forall chunk rest,
     incoming p = chunk :: rest -> Forall is_ascii chunk ->
     readCurrentInputBuffer p
     = (Return (string_of_list_byte chunk), set_incoming rest p)).
Proof.
  split.
  - intros Hin. rewrite readCurrentInputBuffer_run.
    unfold in_waiting, Serial_read. rewrite Hin. reflexivity.
  - intros chunk rest Hin Hc. rewrite readCurrentInputBuffer_run.
    unfold in_waiting, Serial_read. rewrite Hin. cbn [fst snd].
    rewrite firstn_all, skipn_all. cbn [requeue].
    unfold decode_utf8. now rewrite utf8_valid_ascii.
Qed.

(** X12 on the buffer ["sab"]. *)
Lemma readCurrentInputBuffer_ascii_witness :
  incoming (answering [b "sab"; b "c"]) = b "sab" :: [b "c"] /\
  Forall is_ascii (b "sab") /\
  readCurrentInputBuffer (answering [b "sab"; b "c"])
  = (Return "sab", answering [b "c"]).
Proof.
  assert (H : incoming (answering [b "sab"; b "c"]) = b "sab" :: [b "c"])
    by reflexivity.
  assert (Ha : Forall is_ascii (b "sab")) by (repeat constructor).
  split; [exact H|]. split; [exact Ha|].
  exact (proj2 (readCurrentInputBuffer_ascii _) _ _ H Ha).
Defined.

(** ** More on [_findSyncBox] *)

Lemma findSyncBox_from_raises (w : world) (availablePorts : list string) :
  forall created e,
    fst (_findSyncBox_from w availablePorts created) = Raise e ->
    e = SyncBoxException Unable_to_find_SyncBox /\
    find (answers_C w) availablePorts = None.
Proof.
  intros created e H.
  destruct (find (answers_C w) availablePorts) as [name|] eqn:Hf.
  - destruct (findSyncBox_from_found w availablePorts created name Hf)
      as (device & _ & Hr).
    rewrite Hr in H. discriminate.
  - rewrite findSyncBox_from_not_found in H by exact Hf.
    injection H as <-. now split.
Qed.

(** X13: a port returned by [_findSyncBox] is that of the first candidate
    that answers ['C']: it is one of the candidates, it is open and ['C']
    is all that was written to it.  The only exception [_findSyncBox]
    raises is "Unable to find SyncBox", and then no candidate answers
    ['C']. *)
Theorem findSyncBox_sound (w : world) (availablePorts : list string) :
  (forall com,
     fst (_findSyncBox w availablePorts) = Return com ->
     find (answers_C w) availablePorts = Some (port com) /\
     In (port com) availablePorts /\
     answers_C w (port com) = true /\
     written com = b "C" /\ is_open com = true) /\
  (forall e,
     fst (_findSyncBox w availablePorts) = Raise e ->
     e = SyncBoxException Unable_to_find_SyncBox /\
     forall name, In name availablePorts -> answers_C w name = false).
Proof.
  unfold _findSyncBox. split.
  - intros com H.
    destruct (find (answers_C w) availablePorts) as [name|] eqn:Hf.
    + destruct (findSyncBox_from_found w availablePorts [] name Hf)
        as (device & _ & Hr).
      rewrite Hr in H. injection H as <-.
      destruct (probed_fields name device) as (-> & -> & _ & ->).
      destruct (find_some _ _ Hf) as [Hin Ha]. now repeat split.
    + rewrite findSyncBox_from_not_found in H by exact Hf. discriminate.
  - intros e H.
    destruct (findSyncBox_from_raises w availablePorts [] e H) as [-> Hf].
    split; [reflexivity|]. intros name Hin.
    destruct (answers_C w name) eqn:Ha; [|reflexivity].
    now rewrite (find_none _ _ Hf name Hin) in Ha.
Qed.

(** X13 with [COM2] found, and with no candidate answering. *)
Lemma findSyncBox_sound_witness :
  fst (_findSyncBox three_ports ["COM1"; "COM2"; "COM3"])
  = Return (mkSerial "COM2" 57600 (Some (2 # 10)%Q) true (b "C") []) /\
  find (answers_C three_ports) ["COM1"; "COM2"; "COM3"] = Some "COM2" /\
  fst (_findSyncBox three_ports ["COM0"; "COM1"])
  = Raise (SyncBoxException Unable_to_find_SyncBox) /\
  forall name, In name ["COM0"; "COM1"] -> answers_C three_ports name = false.
Proof.
  assert (H1 : fst (_findSyncBox three_ports ["COM1"; "COM2"; "COM3"])
               = Return (mkSerial "COM2" 57600 (Some (2 # 10)%Q) true (b "C") []))
    by reflexivity.
  assert (H2 : fst (_findSyncBox three_ports ["COM0"; "COM1"])
               = Raise (SyncBoxException Unable_to_find_SyncBox))
    by reflexivity.
  split; [exact H1|].
  split; [exact (proj1 (proj1 (findSyncBox_sound three_ports _) _ H1))|].
  split; [exact H2|].
  exact (proj2 (proj2 (findSyncBox_sound three_ports _) _ H2)).
Defined.

Lemma probed_baudrate (name : string) (device : list bytes) :
  baudrate (probed name device) = 57600.
Proof.
  unfold probed, probe, bind, port_set_timeout, port_write, port_read,
    time_sleep, ret, Serial_read.
  destruct device as [|chunk rest]; reflexivity.
Qed.

(** X14: to every port it opens, whether a SyncBox is behind it or not,
    [_findSyncBox] writes the single byte ['C'], at 57600 baud, and leaves
    the timeout at 0.2. *)
Theorem findSyncBox_probes_with_C (w : world) (availablePorts : list string) :
  Forall (fun com => written com = b "C" /\
                     baudrate com = 57600 /\
                     timeout com = Some (2 # 10)%Q)
         (snd (_findSyncBox w availablePorts)).
Proof.
  unfold _findSyncBox. apply findSyncBox_from_Forall; [|constructor].
  intros name device _.
  destruct (probed_fields name device) as (_ & _ & -> & ->).
  rewrite probed_baudrate. now repeat split.
Qed.

(** ** [_getAvailableSerialPorts] *)

Lemma getAvailableSerialPorts_from_run (w : world) (ports : list string) :
  forall result created,
    _getAvailableSerialPorts_from w ports result created
    = (Ports (result ++ filter (can_open w) ports),
       created ++ flat_map (tried w) ports).
Proof.
  induction ports as [|name rest IH]; intros result created.
  - simpl. now rewrite !app_nil_r.
  - cbn [_getAvailableSerialPorts_from filter flat_map].
    unfold Serial_new, can_open, tried at 1.
    destruct (w name) as [device|].
    + rewrite IH, <- !app_assoc. reflexivity.
    + rewrite IH. reflexivity.
Qed.

Lemma tried_closed (w : world) (ports : list string) :
  Forall (fun s => is_open s = false /\ written s = [])
         (flat_map (tried w) ports) /\
  map port (flat_map (tried w) ports) = filter (can_open w) ports.
Proof.
  induction ports as [|name rest [IH1 IH2]]; [split; [constructor | reflexivity]|].
  cbn [flat_map filter].
  assert (Hopen : can_open w name
                  = match w name with Some _ => true | None => false end)
    by reflexivity.
  rewrite Hopen. unfold tried at 1 3.
  destruct (w name) as [device|]; cbn [app map].
  - split.
    + constructor; [split; reflexivity | exact IH1].
    + rewrite IH2. reflexivity.
  - now split.
Qed.

Lemma getAvailableSerialPorts_run (sys_platform : string)
    (glob : string -> list string) (w : world) (ports : list string) :
  platform_ports sys_platform glob = Some ports ->
  _getAvailableSerialPorts sys_platform glob w
  = (Ports (filter (can_open w) ports), flat_map (tried w) ports).
Proof.
  unfold _getAvailableSerialPorts. intros ->.
  now rewrite getAvailableSerialPorts_from_run.
Qed.

(** X15: on a supported platform [_getAvailableSerialPorts] returns the
    names of the platform that can be opened, in their order; it closes
    every port it opened and writes to none.  On any other platform it
    raises [EnvironmentError] before it opens anything. *)
Theorem getAvailableSerialPorts_opens_and_closes (sys_platform : string)
    (glob : string -> list string) (w : world) :
  (forall ports,
     platform_ports sys_platform glob = Some ports ->
     fst (_getAvailableSerialPorts sys_platform glob w)
     = Ports (filter (can_open w) ports) /\
     map port (snd (_getAvailableSerialPorts sys_platform glob w))
     = filter (can_open w) ports /\
     Forall (fun s => is_open s = false /\ written s = [])
            (snd (_getAvailableSerialPorts sys_platform glob w))) /\
  (platform_ports sys_platform glob = None ->
   _getAvailableSerialPorts sys_platform glob w = (EnvironmentError, [])).
Proof.
  split.
  - intros ports Hp. rewrite (getAvailableSerialPorts_run _ _ w ports Hp).
    cbn [fst snd]. destruct (tried_closed w ports) as [H1 H2].
    split; [reflexivity|]. split; [exact H2 | exact H1].
  - unfold _getAvailableSerialPorts. now intros ->.
Qed.

(** X15 on Linux with three names, and on an unsupported platform. *)
Lemma getAvailableSerialPorts_opens_and_closes_witness :
  platform_ports "linux" (fun _ => ["COM0"; "COM1"; "COM2"])
  = Some ["COM0"; "COM1"; "COM2"] /\
  fst (_getAvailableSerialPorts "linux" (fun _ => ["COM0"; "COM1"; "COM2"])
         three_ports) = Ports ["COM1"; "COM2"] /\
  platform_ports "sunos5" (fun _ => ["COM1"]) = None /\
  _getAvailableSerialPorts "sunos5" (fun _ => ["COM1"]) three_ports
  = (EnvironmentError, []).
Proof.
  assert (H1 : platform_ports "linux" (fun _ => ["COM0"; "COM1"; "COM2"])
               = Some ["COM0"; "COM1"; "COM2"]) by reflexivity.
  assert (H2 : platform_ports "sunos5" (fun _ => ["COM1"]) = None)
    by reflexivity.
  split; [exact H1|].
  split; [exact (proj1 (proj1 (getAvailableSerialPorts_opens_and_closes
                                 "linux" _ three_ports) _ H1))|].
  split; [exact H2|].
  exact (proj2 (getAvailableSerialPorts_opens_and_closes
                  "sunos5" _ three_ports) H2).
Defined.



Lemma findSyncBox_from_filter (w : world) (ports : list string) :
  forall created,
    _findSyncBox_from w (filter (can_open w) ports) created
    = _findSyncBox_from w ports created.
Proof.
  induction ports as [|name rest IH]; intros created; [reflexivity|].
  cbn [filter]. unfold can_open at 1.
  destruct (w name) as [device|] eqn:E.
  - rewrite !findSyncBox_from_cons, E.
    destruct (answers_C w name); [reflexivity | apply IH].
  - rewrite (findSyncBox_from_cons w name rest), E. apply IH.
Qed.

(** X17: every name that [_getAvailableSerialPorts] returns can be
    opened, and running the loop of [_findSyncBox] on these names gives the
    result, and probes the ports, that running it on all the names of the
    platform gives. *)
Theorem findSyncBox_after_enumeration (sys_platform : string)
    (glob : string -> list string) (w : world)
    (ports availablePorts : list string) :
  platform_ports sys_platform glob = Some ports ->
  fst (_getAvailableSerialPorts sys_platform glob w) = Ports availablePorts ->
  Forall (fun name => can_open w name = true) availablePorts /\
  _findSyncBox w availablePorts = _findSyncBox w ports.
Proof.
  intros Hp Ha.
  rewrite (getAvailableSerialPorts_run _ _ w ports Hp) in Ha.
  injection Ha as <-. split.
  - apply Forall_forall. intros name Hin. now apply filter_In in Hin.
  - unfold _findSyncBox. apply findSyncBox_from_filter.
Qed.

(** ** [__init__] *)

Lemma configure_port (self : SyncBox) (p : Serial) :
  port (snd (_configure self p)) = port p.
Proof.
  destruct (bytes_eqb (reply "R" p) (b "R")) eqn:E.
  - apply bytes_eqb_eq in E. rewrite configure_run by exact E. cbv zeta.
    destruct (after_handshake_fields "R" p) as (Hp & _).
    destruct (first_failure _); cbn [snd].
    + exact Hp.
    + destruct (Serial_read_fields 48
        (Serial_write (fields_before_failure (encoded_fields self))
           (after_handshake "R" p))) as (-> & _).
      exact Hp.
  - apply bytes_eqb_false in E. rewrite configure_handshake_failed by exact E.
    cbn [snd]. now destruct (after_handshake_fields "R" p) as (-> & _).
Qed.

Lemma SyncBox_init_run (w : world) (availablePorts : list string)
    (self : SyncBox) :
  SyncBox_init w availablePorts self =
  match find (answers_C w) availablePorts with
  | None => (Raise (SyncBoxException Unable_to_find_SyncBox), None)
  | Some name =>
      match w name with
      | Some device =>
          (fst (_configure self (probed name device)),
           Some (snd (_configure self (probed name device))))
      | None => (Raise (SyncBoxException Unable_to_find_SyncBox), None)
      end
  end.
Proof.
  unfold SyncBox_init, _findSyncBox.
  destruct (find (answers_C w) availablePorts) as [name|] eqn:Hf.
  - destruct (findSyncBox_from_found w availablePorts [] name Hf)
      as (device & Hw & Hr).
    rewrite Hr, Hw. now destruct (_configure self (probed name device)).
  - now rewrite findSyncBox_from_not_found.
Qed.

(** X18: when the first candidate that answers ['C'] then confirms ['R']
    and echoes 48 bytes, and the parameters are in [0, 9999], [__init__]
    returns with the port of that candidate open; the driver has written
    to it ['C'], ['R'] and the twelve fields, and what the device sends
    after the echo is still to be read. *)
Theorem SyncBox_init_configures (w : world) (availablePorts : list string)
    (self : SyncBox) (k : nat) (name : string) (echo : bytes)
    (rest : list bytes) :
  first_responder w availablePorts k name ->
  w name = Some (b "C" :: b "R" :: echo :: rest) ->
  List.length echo = 48%nat ->
  parameters_in_range self ->
  exists com,
    SyncBox_init w availablePorts self = (Return tt, Some com) /\
    port com = name /\
    is_open com = true /\
    written com = b "C" ++ b "R" ++ List.concat (configuration_fields self) /\
    incoming com = rest.
Proof.
  intros Hk Hw Hecho Hrange.
  destruct (first_responder_find w availablePorts k name Hk) as [Hf _].
  rewrite SyncBox_init_run, Hf, Hw.
  set (com := probed name (b "C" :: b "R" :: echo :: rest)).
  assert (Hreply : reply "R" com = b "R") by reflexivity.
  rewrite (configure_run self com Hreply). cbv zeta.
  rewrite (encoded_fields_in_range self Hrange).
  rewrite first_failure_in_range, fields_before_failure_in_range.
  rewrite Serial_read_write. cbn [fst snd].
  assert (Hread : Serial_read 48 (after_handshake "R" com)
                  = (echo, set_incoming rest (after_handshake "R" com))).
  { unfold Serial_read. cbn [incoming after_handshake].
    change (incoming (after_handshake "R" com)) with (echo :: rest).
    rewrite <- Hecho, firstn_all, skipn_all. reflexivity. }
  rewrite Hread. cbn [fst snd]. rewrite Hecho.
  eexists. split; [reflexivity|]. repeat split.
Qed.

(** X18 with a SyncBox behind [COM2] and the default parameters. *)
Lemma SyncBox_init_configures_witness :
  first_responder syncbox_at_COM2 ["COM0"; "COM1"; "COM2"] 2 "COM2" /\
  syncbox_at_COM2 "COM2" = Some (b "C" :: b "R" :: echo48 :: [b "s"]) /\
  List.length echo48 = 48%nat /\
  parameters_in_range default_SyncBox /\
  exists com,
    SyncBox_init syncbox_at_COM2 ["COM0"; "COM1"; "COM2"] default_SyncBox
    = (Return tt, Some com) /\
    port com = "COM2" /\
    is_open com = true /\
    written com = b "CR000000160001010030000001000100000000000000000000" /\
    incoming com = [b "s"].
Proof.
  assert (H1 : first_responder syncbox_at_COM2 ["COM0"; "COM1"; "COM2"] 2 "COM2").
  { repeat split. intros j other Hj Hn.
    destruct j as [|[|j]]; [| |lia]; injection Hn as <-; reflexivity. }
  assert (H2 : syncbox_at_COM2 "COM2" = Some (b "C" :: b "R" :: echo48 :: [b "s"]))
    by reflexivity.
  assert (H3 : List.length echo48 = 48%nat) by reflexivity.
  assert (H4 : parameters_in_range default_SyncBox)
    by (unfold parameters_in_range, in_field_range; simpl; lia).
  split; [exact H1|]. split; [exact H2|]. split; [exact H3|]. split; [exact H4|].
  exact (SyncBox_init_configures syncbox_at_COM2 _ default_SyncBox 2 "COM2"
           echo48 [b "s"] H1 H2 H3 H4).
Defined.

(** X19: [__init__] ends without a port exactly when no candidate answers
    ['C'], and it then raises "Unable to find SyncBox".  Otherwise the port
    it found is one of the candidates and is still open, also when
    [_configure] raised, and ['C'] then ['R'] were written to it. *)
Theorem SyncBox_init_keeps_port_open (w : world) (availablePorts : list string)
    (self : SyncBox) :
  (snd (SyncBox_init w availablePorts self) = None <->
   forall name, In name availablePorts -> answers_C w name = false) /\
  (snd (SyncBox_init w availablePorts self) = None ->
   fst (SyncBox_init w availablePorts self)
   = Raise (SyncBoxException Unable_to_find_SyncBox)) /\
  (forall com,
     snd (SyncBox_init w availablePorts self) = Some com ->
     In (port com) availablePorts /\
     is_open com = true /\
     exists sent, written com = b "C" ++ b "R" ++ sent).
Proof.
  rewrite SyncBox_init_run.
  destruct (find (answers_C w) availablePorts) as [name|] eqn:Hf.
  - destruct (find_some _ _ Hf) as [Hin Ha].
    assert (Hw : exists device, w name = Some device).
    { unfold answers_C in Ha. destruct (w name); [now eexists | discriminate]. }
    destruct Hw as [device Hw]. rewrite Hw. cbn [fst snd].
    split; [|split].
    + split; [discriminate|]. intros H. rewrite (H name Hin) in Ha. discriminate.
    + discriminate.
    + intros com H. injection H as <-.
      rewrite configure_port, configure_is_open, configure_written.
      destruct (probed_fields name device) as (-> & -> & _ & ->).
      split; [exact Hin|]. split; [reflexivity|]. now eexists.
  - cbn [fst snd]. split; [|split].
    + split; [|reflexivity]. intros _ name Hin.
      destruct (answers_C w name) eqn:Ha; [|reflexivity].
      now rewrite (find_none _ _ Hf name Hin) in Ha.
    + reflexivity.
    + discriminate.
Qed.

(** X19 with a device that answers ['C'] but not ['R'], and with no device. *)
Lemma SyncBox_init_keeps_port_open_witness :
  snd (SyncBox_init three_ports ["COM0"; "COM1"; "COM2"] too_many_slices)
  = Some (mkSerial "COM2" 57600 (Some (2 # 10)%Q) true (b "CR") []) /\
  fst (SyncBox_init three_ports ["COM0"; "COM1"; "COM2"] too_many_slices)
  = Raise configuration_failed /\
  is_open (mkSerial "COM2" 57600 (Some (2 # 10)%Q) true (b "CR") []) = true /\
  snd (SyncBox_init three_ports ["COM0"; "COM1"] default_SyncBox) = None /\
  fst (SyncBox_init three_ports ["COM0"; "COM1"] default_SyncBox)
  = Raise (SyncBoxException Unable_to_find_SyncBox).
Proof.
  assert (H1 : snd (SyncBox_init three_ports ["COM0"; "COM1"; "COM2"]
                      too_many_slices)
               = Some (mkSerial "COM2" 57600 (Some (2 # 10)%Q) true (b "CR") []))
    by reflexivity.
  assert (H2 : snd (SyncBox_init three_ports ["COM0"; "COM1"] default_SyncBox)
               = None) by reflexivity.
  split; [exact H1|]. split; [reflexivity|].
  split.
  { exact (proj1 (proj2 (proj2 (proj2 (SyncBox_init_keeps_port_open three_ports
             ["COM0"; "COM1"; "COM2"] too_many_slices)) _ H1))). }
  split; [exact H2|].
  exact (proj1 (proj2 (SyncBox_init_keeps_port_open three_ports
                         ["COM0"; "COM1"] default_SyncBox)) H2).
Defined.

Lemma utf8_valid_never_lead (x : byte) (post : bytes) :
  never_lead x = true -> utf8_valid (x :: post) = false.
Proof.
  destruct x; try discriminate; intros _;
    destruct post as [|? [|? [|? ?]]]; reflexivity.
Qed.

Lemma utf8_valid_after_ascii (pre post : bytes) :
  Forall is_ascii pre -> utf8_valid (pre ++ post) = utf8_valid post.
Proof.
  induction 1 as [|x pre Hx Hpre IH]; [reflexivity|].
  cbn [app utf8_valid]. unfold in_range.
  replace (Byte.to_N x <=? 127)%N with true
    by (symmetry; apply N.leb_le; unfold is_ascii in Hx; lia).
  replace (0 <=? Byte.to_N x)%N with true
    by (symmetry; apply N.leb_le; lia).
  exact IH.
Qed.

(** X20: when the input buffer holds, after ASCII bytes, a byte that
    cannot begin a UTF-8 sequence, [readCurrentInputBuffer] raises
    [UnicodeDecodeError]; the whole buffer has been read and is lost. *)
Theorem readCurrentInputBuffer_malformed (p : Serial) (pre : bytes) (x : byte)
    (post : bytes) (rest : list bytes) :
  incoming p = (pre ++ x :: post) :: rest ->
  Forall is_ascii pre ->
  never_lead x = true ->
  readCurrentInputBuffer p = (Raise UnicodeDecodeError, set_incoming rest p).
Proof.
  intros Hin Hpre Hx. rewrite readCurrentInputBuffer_run.
  unfold in_waiting, Serial_read. rewrite Hin. cbn [fst snd].
  rewrite firstn_all, skipn_all. cbn [requeue].
  unfold decode_utf8.
  now rewrite utf8_valid_after_ascii, utf8_valid_never_lead.
Qed.

(** X20 on the buffer ['s'], [0xFF], ['a']. *)
Lemma readCurrentInputBuffer_malformed_witness :
  incoming (answering [[x73; xff; x61]; b "b"])
  = ([x73] ++ xff :: [x61]) :: [b "b"] /\
  Forall is_ascii [x73] /\
  never_lead xff = true /\
  readCurrentInputBuffer (answering [[x73; xff; x61]; b "b"])
  = (Raise UnicodeDecodeError, answering [b "b"]).
Proof.
  assert (H1 : incoming (answering [[x73; xff; x61]; b "b"])
               = ([x73] ++ xff :: [x61]) :: [b "b"]) by reflexivity.
  assert (H2 : Forall is_ascii [x73]) by (repeat constructor).
  assert (H3 : never_lead xff = true) by reflexivity.
  split; [exact H1|]. split; [exact H2|]. split; [exact H3|].
  exact (readCurrentInputBuffer_malformed _ _ _ _ _ H1 H2 H3).
Defined.

(** X17 on Linux with four names, of which [COM0] cannot be opened. *)
Lemma findSyncBox_after_enumeration_witness :
  platform_ports "linux" (fun _ => ["COM0"; "COM1"; "COM2"; "COM3"])
  = Some ["COM0"; "COM1"; "COM2"; "COM3"] /\
  fst (_getAvailableSerialPorts "linux"
         (fun _ => ["COM0"; "COM1"; "COM2"; "COM3"]) three_ports)
  = Ports ["COM1"; "COM2"; "COM3"] /\
  Forall (fun name => can_open three_ports name = true)
         ["COM1"; "COM2"; "COM3"] /\
  _findSyncBox three_ports ["COM1"; "COM2"; "COM3"]
  = _findSyncBox three_ports ["COM0"; "COM1"; "COM2"; "COM3"].
Proof.
  assert (H1 : platform_ports "linux" (fun _ => ["COM0"; "COM1"; "COM2"; "COM3"])
               = Some ["COM0"; "COM1"; "COM2"; "COM3"]) by reflexivity.
  assert (H2 : fst (_getAvailableSerialPorts "linux"
                      (fun _ => ["COM0"; "COM1"; "COM2"; "COM3"]) three_ports)
               = Ports ["COM1"; "COM2"; "COM3"]) by reflexivity.
  split; [exact H1|]. split; [exact H2|].
  exact (findSyncBox_after_enumeration "linux" _ three_ports _ _ H1 H2).
Defined.
